(** * Habit tracker (app.py): store, check-in, persistence and calendar

    A shallow embedding of the state-bearing parts of [app.py] and the
    properties of the habit store, the check-in block, the persistence
    functions, the completion rates and the calendar grid.

    The script keeps its state in two session entries: [habits], the list
    of habit names in display order, and [habit_data], a dict from habit
    name to a dict with the keys "category", "goal", "streak" and
    "history".  The handlers of the script are embedded as functions on
    that state; a Python exception is a value of [exn]. *)

From stdpp Require Import gmap strings list fin_maps.
From Stdlib Require Import ZArith QArith Qabs Qpower SpecFloat.

Local Open Scope Z_scope.
#[local] Set Warnings "-register-all,-clear-no-such-hyp".

(** ** Python exceptions raised by the embedded code *)

Inductive exn :=
| KeyError
| ValueError
| TypeError
| OverflowError
| ZeroDivisionError
| JSONDecodeError.

(** ** The habit store (session state of the script) *)

(** The value stored under a habit name.  The key "history" is looked up
    with [in] / [.get] throughout the script, so it may be missing; the
    other three keys are read with [[...]]. *)
Record habit_info := {
  category : string;
  goal : string;
  streak : Z;
  history : option (gmap string bool)
}.

Record session_state := {
  habits : list string;
  habit_data : gmap string habit_info
}.

Definition empty_state : session_state :=
  {| habits := []; habit_data := ∅ |}.

(** [info.get("history", {})] *)
Definition get_history (info : habit_info) : gmap string bool :=
  default ∅ (history info).

(** ** Add Habit handler (lines 52-66) *)

Inductive add_outcome :=
| Added            (* st.sidebar.success(...) *)
| DuplicateHabit   (* "This habit already exists!" *)
| InvalidName.     (* "Please enter a habit name." *)

(** Truth value of a Python [str]: only the empty string is falsy. *)
Definition str_truthy (s : string) : bool :=
  match s with
  | EmptyString => false
  | String _ _ => true
  end.

Definition add_habit (st : session_state)
    (new_habit habit_category habit_goal : string)
  : session_state * add_outcome :=
  if str_truthy new_habit && bool_decide (new_habit ∉ habits st) then
    ({| habits := habits st ++ [new_habit];
        habit_data :=
          <[new_habit := {| category := habit_category;
                            goal := habit_goal;
                            streak := 0;
                            history := Some ∅ |}]> (habit_data st) |},
     Added)
  else if bool_decide (new_habit ∈ habits st) then (st, DuplicateHabit)
  else (st, InvalidName).

(** ** Remove Habit handler (lines 71-75) *)

(** [list.remove(x)]: drops the first occurrence, raises [ValueError]
    when there is none. *)
Fixpoint list_remove (x : string) (l : list string) : option (list string) :=
  match l with
  | [] => None
  | y :: l' =>
      if decide (y = x) then Some l'
      else cons y <$> list_remove x l'
  end.

Definition remove_habit (st : session_state) (habit_to_remove : string)
  : exn + session_state :=
  match list_remove habit_to_remove (habits st) with
  | None => inl ValueError
  | Some l =>
      inr {| habits := l;
             habit_data :=
               if bool_decide (is_Some (habit_data st !! habit_to_remove))
               then delete habit_to_remove (habit_data st)
               else habit_data st |}
  end.

(** ** Check-in block (lines 102-127), for one habit of the loop *)

(** Lines 103-105: the status shown for the date, [False] unless the
    history records the date. *)
Definition current_status (info : habit_info) (date_str : string) : bool :=
  match get_history info !! date_str with
  | Some b => b
  | None => false
  end.

(** Lines 116-125, run when the checkbox differs from the status. *)
Definition apply_checkin (info : habit_info) (date_str : string)
    (completed : bool) : habit_info :=
  let hist :=
    match history info with
    | None => ∅            (* "history" not in ...: start from {} *)
    | Some h => h
    end in
  {| category := category info;
     goal := goal info;
     streak := if completed then streak info + 1 else 0;
     history := Some (<[date_str := completed]> hist) |}.

(** [completed] is the value the checkbox returns. *)
Definition record_checkin (st : session_state) (habit date_str : string)
    (completed : bool) : exn + session_state :=
  match habit_data st !! habit with
  | None => inl KeyError
  | Some info =>
      let habit_completed := current_status info date_str in
      if bool_decide (completed ≠ habit_completed) then
        inr {| habits := habits st;
               habit_data :=
                 <[habit := apply_checkin info date_str completed]>
                   (habit_data st) |}
      else inr st
  end.

(** The loop over all habits (lines 99-127); [checkbox] gives the state of
    the checkbox of each habit for the selected date. *)
Fixpoint checkin_loop (names : list string) (st : session_state)
    (date_str : string) (checkbox : string → bool) : exn + session_state :=
  match names with
  | [] => inr st
  | habit :: rest =>
      match record_checkin st habit date_str (checkbox habit) with
      | inl e => inl e
      | inr st' => checkin_loop rest st' date_str checkbox
      end
  end.

Definition daily_checkin (st : session_state) (date_str : string)
    (checkbox : string → bool) : exn + session_state :=
  checkin_loop (habits st) st date_str checkbox.

(** Streak and history of a habit, as read by the analytics tabs. *)
Definition streak_of (st : session_state) (habit : string) : option Z :=
  streak <$> habit_data st !! habit.

Definition history_of (st : session_state) (habit : string)
  : option (gmap string bool) :=
  get_history <$> habit_data st !! habit.

(** ** Python values held in the session and written by [json]

    The values the [json] module reads and writes: [None], booleans,
    integers, floats (carried as their binary64 bit pattern and never
    inspected here), strings, lists and dicts with string keys. *)

Inductive pyval :=
| PyNone
| PyBool (b : bool)
| PyInt (n : Z)
| PyFloat (bits : Z)
| PyStr (s : string)
| PyList (l : list pyval)
| PyDict (d : gmap string pyval).

(** [v[key]] for a string key: only a dict can be indexed by a string. *)
Definition py_getitem (v : pyval) (key : string) : exn + pyval :=
  match v with
  | PyDict d =>
      match d !! key with
      | Some x => inr x
      | None => inl KeyError
      end
  | _ => inl TypeError
  end.

(** The two session entries as the Python objects they are.  [load_data]
    assigns to them whatever the file holds, so they are untyped here. *)
Record py_session := {
  py_habits : pyval;
  py_habit_data : pyval
}.

(** *** The typed store as Python objects *)

Definition py_of_history (h : gmap string bool) : pyval :=
  PyDict (PyBool <$> h).

Definition info_fields (info : habit_info) : gmap string pyval :=
  <["category" := PyStr (category info)]>
    (<["goal" := PyStr (goal info)]>
       (<["streak" := PyInt (streak info)]> ∅)).

Definition py_of_info (info : habit_info) : pyval :=
  PyDict
    match history info with
    | Some h => <["history" := py_of_history h]> (info_fields info)
    | None => info_fields info
    end.

Definition py_of_state (st : session_state) : py_session :=
  {| py_habits := PyList (PyStr <$> habits st);
     py_habit_data := PyDict (py_of_info <$> habit_data st) |}.

(** Reading the typed store back from the Python objects; [None] when
    they do not have the shape the handlers write. *)

Definition as_str (v : pyval) : option string :=
  match v with PyStr s => Some s | _ => None end.

Definition as_bool (v : pyval) : option bool :=
  match v with PyBool b => Some b | _ => None end.

Definition as_int (v : pyval) : option Z :=
  match v with PyInt n => Some n | _ => None end.

Definition as_dict (v : pyval) : option (gmap string pyval) :=
  match v with PyDict d => Some d | _ => None end.

Definition as_list (v : pyval) : option (list pyval) :=
  match v with PyList l => Some l | _ => None end.

(** A dict all of whose values are read by [f]. *)
Definition dict_values {A} (f : pyval → option A) (d : gmap string pyval)
  : option (gmap string A) :=
  if bool_decide (map_Forall (λ _ v, is_Some (f v)) d)
  then Some (omap f d) else None.

Definition history_of_py (v : pyval) : option (gmap string bool) :=
  d ← as_dict v; dict_values as_bool d.

Definition info_of_py (v : pyval) : option habit_info :=
  d ← as_dict v;
  c ← d !! "category" ≫= as_str;
  g ← d !! "goal" ≫= as_str;
  s ← d !! "streak" ≫= as_int;
  match d !! "history" with
  | None =>
      if bool_decide (size d = 3%nat)
      then Some {| category := c; goal := g; streak := s; history := None |}
      else None
  | Some hv =>
      h ← history_of_py hv;
      if bool_decide (size d = 4%nat)
      then Some {| category := c; goal := g; streak := s; history := Some h |}
      else None
  end.

Definition state_of_py (s : py_session) : option session_state :=
  l ← as_list (py_habits s);
  names ← mapM as_str l;
  d ← as_dict (py_habit_data s);
  hd ← dict_values info_of_py d;
  Some {| habits := names; habit_data := hd |}.

(** ** Persistence: [save_data], [load_data] and the start of the script

    The text layer of the [json] module is not modelled: the content of
    habit_data.json is represented by what [json.load] makes of it, either
    a decoding error or the document read, and [json.dump] leaves the file
    holding the document it was given. *)

Inductive content :=
| Unparsable                (* json.load raises JSONDecodeError *)
| Document (data : pyval).  (* json.load returns data *)

(** [None]: habit_data.json does not exist. *)
Definition resource := option content.

Record env := {
  session : py_session;
  file : resource
}.

(** State that survives an exception: the assignments made before a raise
    stay in place. *)
Definition M (A : Type) : Type := env → (exn + A) * env.

Definition ret {A} (a : A) : M A := λ e, (inr a, e).

Definition raise {A} (x : exn) : M A := λ e, (inl x, e).

Definition bind {A B} (m : M A) (k : A → M B) : M B :=
  λ e, match m e with
       | (inl x, e') => (inl x, e')
       | (inr a, e') => k a e'
       end.

Definition lift {A} (r : exn + A) : M A :=
  match r with
  | inl x => raise x
  | inr a => ret a
  end.

Declare Scope py_scope.
Delimit Scope py_scope with py.
Notation "x <- m ;; k" := (bind m (λ x, k))
  (at level 100, m at next level, right associativity) : py_scope.
Notation "m ;; k" := (bind m (λ _, k))
  (at level 100, right associativity) : py_scope.

(** [os.path.exists('habit_data.json')] *)
Definition path_exists : M bool :=
  λ e, (inr (bool_decide (is_Some (file e))), e).

(** [json.load(f)] on the open file. *)
Definition json_load : M pyval :=
  λ e, match file e with
       | Some (Document data) => (inr data, e)
       | _ => (inl JSONDecodeError, e)
       end.

(** [open(..., 'w')] and [json.dump(data, f)]: the file is replaced. *)
Definition json_dump (data : pyval) : M unit :=
  λ e, (inr tt, {| session := session e; file := Some (Document data) |}).

Definition get_session : M py_session := λ e, (inr (session e), e).

(** [st.session_state.habits = v] *)
Definition set_habits (v : pyval) : M unit :=
  λ e, (inr tt,
        {| session := {| py_habits := v;
                         py_habit_data := py_habit_data (session e) |};
           file := file e |}).

(** [st.session_state.habit_data = v] *)
Definition set_habit_data (v : pyval) : M unit :=
  λ e, (inr tt,
        {| session := {| py_habits := py_habits (session e);
                         py_habit_data := v |};
           file := file e |}).

Definition save_data : M unit :=
  (s <- get_session ;;
   let data :=
     PyDict (<["habits" := py_habits s]>
               (<["habit_data" := py_habit_data s]> ∅)) in
   json_dump data)%py.

Definition load_data : M unit :=
  (present <- path_exists ;;
   if present then
     data <- json_load ;;
     h <- lift (py_getitem data "habits") ;;
     set_habits h ;;
     d <- lift (py_getitem data "habit_data") ;;
     set_habit_data d
   else ret tt)%py.

(** Lines 16-20 on a new session: both entries are created empty. *)
Definition fresh_session : py_session :=
  {| py_habits := PyList []; py_habit_data := PyDict ∅ |}.

(** Lines 38-42: [try: load_data() except: st.warning(...)].  The result
    is the environment after the block and whether the warning is shown. *)
Definition try_load (e : env) : env * bool :=
  match load_data e with
  | (inl _, e') => (e', true)
  | (inr _, e') => (e', false)
  end.

(** The session after the first run of the script over the file [r]. *)
Definition startup (r : resource) : py_session * bool :=
  let (e, warned) := try_load {| session := fresh_session; file := r |} in
  (session e, warned).

(** [save_data] then [load_data] into the session [s0], for the typed
    store: what the next start of the script reads. *)
Definition save_then_load (st : session_state) (r : resource)
    (s0 : py_session) : (exn + unit) * py_session :=
  let (_, e1) := save_data {| session := py_of_state st; file := r |} in
  let (res, e2) := load_data {| session := s0; file := file e1 |} in
  (res, session e2).

(** ** The [datetime.date] operations the calendar uses

    Dates of the proleptic Gregorian calendar as the [datetime] module
    defines them: a date is checked on construction, its ordinal counts
    days from 0001-01-01 = 1, and Monday is weekday 0. *)

Module datetime.

Record date := mkdate { year : Z; month : Z; day : Z }.

Definition MINYEAR : Z := 1.
Definition MAXYEAR : Z := 9999.
Definition MAXORDINAL : Z := 3652059.

Definition DAYS_IN_MONTH : list Z :=
  [-1; 31; 28; 31; 30; 31; 30; 31; 31; 30; 31; 30; 31].

Definition DAYS_BEFORE_MONTH : list Z :=
  [-1; 0; 31; 59; 90; 120; 151; 181; 212; 243; 273; 304; 334].

Definition is_leap (y : Z) : bool :=
  (y mod 4 =? 0) && (negb (y mod 100 =? 0) || (y mod 400 =? 0)).

Definition days_before_year (y : Z) : Z :=
  let y := y - 1 in
  y * 365 + y / 4 - y / 100 + y / 400.

Definition days_in_month (y m : Z) : Z :=
  if (m =? 2) && is_leap y then 29
  else nth (Z.to_nat m) DAYS_IN_MONTH 0.

Definition days_before_month (y m : Z) : Z :=
  nth (Z.to_nat m) DAYS_BEFORE_MONTH 0
  + (if (2 <? m) && is_leap y then 1 else 0).

Definition ymd2ord (y m d : Z) : Z :=
  days_before_year y + days_before_month y m + d.

(** The three arguments of [datetime.date] are converted to C [int]s
    before anything else is looked at. *)
Definition fits_int (z : Z) : bool :=
  (-2147483648 <=? z) && (z <=? 2147483647).

(** [datetime.date(y, m, d)]: [OverflowError] when an argument does not
    fit a C [int], [ValueError] when the three are no date of the
    supported range. *)
Definition new (y m d : Z) : exn + date :=
  if negb (fits_int y && fits_int m && fits_int d) then inl OverflowError
  else if (MINYEAR <=? y) && (y <=? MAXYEAR)
     && (1 <=? m) && (m <=? 12)
     && (1 <=? d) && (d <=? days_in_month y m)
  then inr (mkdate y m d)
  else inl ValueError.

Definition toordinal (dt : date) : Z :=
  ymd2ord (year dt) (month dt) (day dt).

Definition DI400Y : Z := 146097.
Definition DI100Y : Z := 36524.
Definition DI4Y : Z := 1461.

Definition ord2ymd (n : Z) : Z * Z * Z :=
  let n := n - 1 in
  let n400 := n / DI400Y in
  let n := n mod DI400Y in
  let y := n400 * 400 + 1 in
  let n100 := n / DI100Y in
  let n := n mod DI100Y in
  let n4 := n / DI4Y in
  let n := n mod DI4Y in
  let n1 := n / 365 in
  let n := n mod 365 in
  let y := y + n100 * 100 + n4 * 4 + n1 in
  if (n1 =? 4) || (n100 =? 4) then (y - 1, 12, 31)
  else
    let leapyear :=
      (n1 =? 3) && (negb (n4 =? 24) || (n100 =? 3)) in
    let m := Z.shiftr (n + 50) 5 in
    let preceding :=
      nth (Z.to_nat m) DAYS_BEFORE_MONTH 0
      + (if (2 <? m) && leapyear then 1 else 0) in
    if n <? preceding then
      let m := m - 1 in
      let preceding :=
        preceding
        - (nth (Z.to_nat m) DAYS_IN_MONTH 0
           + (if (m =? 2) && leapyear then 1 else 0)) in
      (y, m, n - preceding + 1)
    else (y, m, n - preceding + 1).

Definition fromordinal (n : Z) : exn + date :=
  let '(y, m, d) := ord2ymd n in new y m d.

(** [dt - datetime.timedelta(days=k)] *)
Definition sub_days (dt : date) (k : Z) : exn + date :=
  let o := toordinal dt - k in
  if (0 <? o) && (o <=? MAXORDINAL) then fromordinal o
  else inl OverflowError.

(** [dt.weekday()]: Monday = 0, Sunday = 6. *)
Definition weekday (dt : date) : Z :=
  (toordinal dt + 6) mod 7.

Definition digit (n : Z) : Ascii.ascii :=
  Ascii.ascii_of_N (48 + Z.to_N (n mod 10)).

Definition pad2 (n : Z) : string :=
  String (digit (n / 10)) (String (digit n) EmptyString).

Definition pad4 (n : Z) : string :=
  String (digit (n / 1000)) (String (digit (n / 100)) (pad2 n)).

(** [dt.strftime("%Y-%m-%d")] as documented, the year on four digits.
    (For years below 1000 some C libraries print the year without the
    leading zeros; the calendar block below therefore takes the
    formatting function as an argument.) *)
Definition strftime_ymd (dt : date) : string :=
  pad4 (year dt) +:+ "-" +:+ pad2 (month dt) +:+ "-" +:+ pad2 (day dt).

End datetime.

(** ** Calendar view (lines 184-235)

    [current_year] and [current_month] are those of [datetime.date.today()];
    [strftime] stands for [date.strftime("%Y-%m-%d")].  A cell of a week is
    [None] for padding or a day record. *)

Record day_cell := {
  day : Z;
  completed : bool;
  date : datetime.date
}.

Definition cell := option day_cell.

(** Lines 188-194: the number of days, read off the day before the first
    of the following month. *)
Definition num_days (current_year current_month : Z) : exn + Z :=
  match
    (if current_month =? 12
     then datetime.new (current_year + 1) 1 1
     else datetime.new current_year (current_month + 1) 1)
  with
  | inl e => inl e
  | inr next_first =>
      match datetime.sub_days next_first 1 with
      | inl e => inl e
      | inr last_day => inr (datetime.day last_day)
      end
  end.

(** Lines 210-225: the completion status shown for a date. *)
Definition day_status (hd : gmap string habit_info) (selected_habit : string)
    (date_str : string) : bool :=
  match hd !! selected_habit with
  | Some info =>
      match history info with
      | Some h => default false (h !! date_str)
      | None => false
      end
  | None => false
  end.

Definition make_cell (strftime : datetime.date → string)
    (hd : gmap string habit_info) (selected_habit : string)
    (d : Z) (dt : datetime.date) : cell :=
  Some {| day := d;
          completed := day_status hd selected_habit (strftime dt);
          date := dt |}.

(** Lines 206-229: the loop over the days; the state is the list of the
    finished weeks and the week being filled. *)
Fixpoint fill_days (strftime : datetime.date → string)
    (hd : gmap string habit_info) (selected_habit : string)
    (current_year current_month : Z) (days : list Z)
    (calendar_data : list (list cell)) (week : list cell)
  : exn + (list (list cell) * list cell) :=
  match days with
  | [] => inr (calendar_data, week)
  | d :: rest =>
      match datetime.new current_year current_month d with
      | inl e => inl e
      | inr dt =>
          let week := week ++ [make_cell strftime hd selected_habit d dt] in
          if (length week =? 7)%nat
          then fill_days strftime hd selected_habit current_year current_month rest
                 (calendar_data ++ [week]) []
          else fill_days strftime hd selected_habit current_year current_month rest
                 calendar_data week
      end
  end.

(** Lines 233-234: [while len(week) < 7: week.append(None)]; every turn
    lengthens the week, so seven turns are enough for any week. *)
Fixpoint pad_week (fuel : nat) (week : list cell) : list cell :=
  if (length week <? 7)%nat then
    match fuel with
    | O => week
    | S fuel' => pad_week fuel' (week ++ [None])
    end
  else week.

(** Lines 201-203: [for _ in range(first_weekday): week.append(None)] *)
Definition leading_cells (first_weekday : Z) : list cell :=
  Nat.iter (Z.to_nat first_weekday) (λ week, week ++ [None]) [].

Definition calendar_grid (strftime : datetime.date → string)
    (hd : gmap string habit_info)
    (selected_habit : string) (current_year current_month : Z)
  : exn + list (list cell) :=
  match datetime.new current_year current_month 1 with
  | inl e => inl e
  | inr first_day =>
      match num_days current_year current_month with
      | inl e => inl e
      | inr n =>
          let first_weekday := datetime.weekday first_day in
          match fill_days strftime hd selected_habit current_year current_month
                  (seqZ 1 n) [] (leading_cells first_weekday) with
          | inl e => inl e
          | inr (calendar_data, week) =>
              match week with
              | [] => inr calendar_data
              | _ :: _ => inr (calendar_data ++ [pad_week 7 week])
              end
          end
      end
  end.

(** ** Completion rates (lines 156-165)

    [total = len(history)] and
    [completed = sum(1 for status in history.values() if status)]. *)

Definition history_total (h : gmap string bool) : nat := size h.

Definition history_completed (h : gmap string bool) : nat :=
  length (filter (λ status : bool, status = true) (snd <$> map_to_list h)).

(** The rate is a Python number: the int [0] of the two [else] branches,
    or the float of [(completed / total) * 100].  A float is a binary64
    value, given by [spec_float] with precision 53 and [emax = 1024]. *)
Inductive number :=
| Int (z : Z)
| Float (f : spec_float).

(** An int as operand of a true division: the integer itself, as a
    mantissa with exponent 0, and not its rounding to a float.
    [int / int] rounds the quotient of the two integers once, to nearest
    with ties to even; [SFdiv] does so from these operands. *)
Definition exact_int (z : Z) : spec_float :=
  match z with
  | Z0 => S754_zero false
  | Zpos p => S754_finite false p 0
  | Zneg p => S754_finite true p 0
  end.

(** A result too large for a float raises [OverflowError]. *)
Definition finite_or_overflow (f : spec_float) : exn + spec_float :=
  match f with
  | S754_infinity _ => inl OverflowError
  | _ => inr f
  end.

(** [a / b] on ints. *)
Definition int_truediv (a b : Z) : exn + spec_float :=
  if b =? 0 then inl ZeroDivisionError
  else finite_or_overflow (SFdiv 53 1024 (exact_int a) (exact_int b)).

(** [float(z)], the conversion [float * int] applies to its int operand:
    the nearest float, ties to even. *)
Definition float_of_int (z : Z) : exn + spec_float :=
  finite_or_overflow (binary_normalize 53 1024 z 0 false).

(** [f * z] for a float [f] and an int [z]. *)
Definition float_mul_int (f : spec_float) (z : Z) : exn + spec_float :=
  match float_of_int z with
  | inl e => inl e
  | inr g => inr (SFmul 53 1024 f g)
  end.

(** Line 162: [(completed / total) * 100 if total > 0 else 0]. *)
Definition rate_of_counts (completed total : Z) : exn + number :=
  if 0 <? total then
    match int_truediv completed total with
    | inl e => inl e
    | inr q =>
        match float_mul_int q 100 with
        | inl e => inl e
        | inr rate => inr (Float rate)
        end
    end
  else inr (Int 0).

(** Lines 158-165, for the entry of one habit. *)
Definition completion_rate (info : habit_info) : exn + number :=
  match history info with
  | Some h =>
      rate_of_counts (Z.of_nat (history_completed h))
        (Z.of_nat (history_total h))
  | None => inr (Int 0)
  end.

(** The body of the loop for one habit: [habit_data[habit]] raises
    [KeyError] for a name without entry. *)
Definition completion_rate_of (st : session_state) (habit : string)
  : exn + number :=
  match habit_data st !! habit with
  | None => inl KeyError
  | Some info => completion_rate info
  end.

(** The rational number a finite float stands for. *)
Definition float_value (f : spec_float) : option Q :=
  match f with
  | S754_zero _ => Some 0%Q
  | S754_finite s m e =>
      Some (inject_Z (if s then Zneg m else Zpos m) * Qpower 2 e)%Q
  | S754_infinity _ | S754_nan => None
  end.

(** *** Rounding to binary64, in integers

    The definitions below serve the proofs about [SFdiv] and [SFmul];
    they restate in integers what the rounding functions of [SpecFloat]
    compute on a non-negative quotient [N / D]. *)

(** The position of [N / D] between the integers [N / D] and
    [N / D + 1]. *)
Definition loc_of (N D : Z) : location :=
  if N mod D =? 0 then loc_Exact
  else loc_Inexact (2 * (N mod D) ?= D).

(** A shift record that holds the integer part of [N / D] and the
    position of the rest. *)
Definition encodes (mrs : shr_record) (N D : Z) : Prop :=
  shr_m mrs = N / D ∧ loc_of_shr_record mrs = loc_of N D.

(** The exponent [binary_round_aux] rounds a mantissa [mx] of exponent
    [ex] to, the denominator at that exponent, and the rounded
    mantissa. *)
Definition round_exp (mx ex : Z) : Z :=
  Z.max ex (fexp 53 1024 (Zdigits2 mx + ex)).

Definition round_den (mx ex D : Z) : Z := 2 ^ (round_exp mx ex - ex) * D.

Definition round_man (mx ex N D : Z) : Z :=
  round_nearest_even (N / round_den mx ex D) (loc_of N (round_den mx ex D)).

(** The float [binary_round_aux] returns for a rounded mantissa. *)
Definition pack64 (m e : Z) : spec_float :=
  if m =? 0 then S754_zero false
  else if m =? 2 ^ 53 then
    if e + 1 <=? 971 then S754_finite false (2 ^ 52) (e + 1)
    else S754_infinity false
  else
    if e <=? 971 then S754_finite false (Z.to_pos m) e
    else S754_infinity false.

(** The non-negative float of mantissa [m] and exponent [e]. *)
Definition mk64 (m e : Z) : spec_float :=
  match m with
  | Zpos p => S754_finite false p e
  | _ => S754_zero false
  end.

(** ** Runs of the handlers *)

(** The streak of [habit] after each of a series of check-ins, applied in
    order. *)
Fixpoint streaks_after (st : session_state) (habit : string)
    (checkins : list (string * bool)) : exn + list (option Z) :=
  match checkins with
  | [] => inr []
  | (date_str, b) :: rest =>
      match record_checkin st habit date_str b with
      | inl e => inl e
      | inr st' =>
          match streaks_after st' habit rest with
          | inl e => inl e
          | inr l => inr (streak_of st' habit :: l)
          end
      end
  end.

Inductive mutation :=
| Add (new_habit habit_category habit_goal : string)
| Remove (habit_to_remove : string)
| Checkin (habit date_str : string) (checked : bool).

Definition apply_mutation (st : session_state) (m : mutation)
  : exn + session_state :=
  match m with
  | Add n c g => inr (add_habit st n c g).1
  | Remove n => remove_habit st n
  | Checkin n d b => record_checkin st n d b
  end.

(** [save_data()] closes every handler that changed the session (lines
    61, 75 and 127): the file then holds the new state. *)
Definition snapshot (st : session_state) (r : resource) : resource :=
  file (save_data {| session := py_of_state st; file := r |}).2.

Definition handle (w : session_state * resource) (m : mutation)
  : exn + session_state * resource :=
  match apply_mutation w.1 m with
  | inl e => inl e
  | inr st' =>
      let saved :=
        match m with
        | Add n c g =>
            match (add_habit w.1 n c g).2 with
            | Added => true
            | _ => false
            end
        | Remove _ => true
        | Checkin n d b =>
            match habit_data w.1 !! n with
            | Some info => bool_decide (b ≠ current_status info d)
            | None => false
            end
        end in
      inr (st', if saved then snapshot st' w.2 else w.2)
  end.

(** States the handlers produce from the empty store. *)
Inductive reachable : session_state → Prop :=
| reachable_empty : reachable empty_state
| reachable_step st m st' :
    reachable st → apply_mutation st m = inr st' → reachable st'.

(** The name sequence and the mapping hold the same names. *)
Definition in_sync (st : session_state) : Prop :=
  ∀ name, name ∈ habits st ↔ is_Some (habit_data st !! name).

(** No name occurs twice in the sequence. *)
Definition unique_names (st : session_state) : Prop :=
  NoDup (habits st).

(** ** Sample stores *)

(** The store after adding one habit to the empty store. *)
Definition run_store : session_state :=
  (add_habit empty_state "run" "Health" "Daily").1.


(** [run_store] after ticking 2024-05-02 and 2024-05-01 and then
    unticking 2024-05-02. *)
Definition run_info_checked : habit_info :=
  {| category := "Health"; goal := "Daily"; streak := 0;
     history := Some (<["2024-05-01" := true]> {["2024-05-02" := false]}) |}.

Definition run_store_checked : session_state :=
  {| habits := ["run"]; habit_data := {[ "run" := run_info_checked ]} |}.


(** [run_store] after ticking 2024-05-01 and 2024-05-02, unticking
    2024-05-02 and ticking 2024-05-03. *)
Definition run_info_rated : habit_info :=
  {| category := "Health"; goal := "Daily"; streak := 1;
     history :=
       Some (<["2024-05-01" := true]>
               (<["2024-05-02" := false]> {["2024-05-03" := true]})) |}.

Definition run_store_rated : session_state :=
  {| habits := ["run"]; habit_data := {[ "run" := run_info_rated ]} |}.

(** A file that parses but holds no store: both keys are there, neither
    value has the shape the handlers write. *)
Definition misshapen_document : pyval :=
  PyDict (<["habits" := PyInt 5]> (<["habit_data" := PyNone]> ∅)).

(** A file that parses to a dict without the key "habit_data". *)
Definition truncated_document : pyval :=
  PyDict {[ "habits" := PyList [PyStr "run"] ]}.


(** ** A check of [ord2ymd] over one cycle of 400 years

    [num_days] goes through the ordinal of the first day of the next month
    and back to a date.  The check runs [ord2ymd] on the ordinal of the
    last day of every month of the years 1 to 400; the calendar repeats
    every 400 years. *)

Definition last_day_checked (y m : Z) : bool :=
  let n := datetime.days_in_month y m in
  let '(y', m', d') := datetime.ord2ymd (datetime.ymd2ord y m n) in
  (y' =? y) && (m' =? m) && (d' =? n).


(** The day cell in the words of the specification, to compare with the
    cells [calendar_grid] builds: the day number and
    [history.get(date_string, False)] for the date of that day. *)
Definition spec_cell (strftime : datetime.date → string)
    (info : habit_info) (y m d : Z) : cell :=
  Some {| day := d;
          completed :=
            default false
              (get_history info
                 !! strftime (datetime.mkdate y m d));
          date := datetime.mkdate y m d |}.


(** [in_sync] as a test that can be run. *)
Definition in_sync_b (st : session_state) : bool :=
  bool_decide (list_to_set (habits st) =@{gset string} dom (habit_data st)).


(** ** Check-in columns (lines 97-101)

    [cols = st.columns(min(3, len(habits)))] and, for the habit at
    position [i], [cols[i % 3]]. *)

Definition num_columns (names : list string) : nat :=
  Nat.min 3 (length names).

Definition col_idx (i : nat) : nat := (i mod 3)%nat.

(** ** Export to CSV (lines 303-331)

    One row per recorded date of every habit, the habits in display
    order.  The rows of one habit follow the order of [history.items()],
    the insertion order of the dict, which the map does not record: they
    are listed here in the order of [map_to_list].  The rendering of the
    rows by pandas is not modelled. *)

Record export_row := {
  row_habit : string;       (* "Habit" *)
  row_category : string;    (* "Category" *)
  row_goal : string;        (* "Goal Type" *)
  row_date : string;        (* "Date" *)
  row_completed : string;   (* "Completed" *)
  row_streak : Z            (* "Current Streak" *)
}.

(** ["Yes" if completed else "No"] *)
Definition yes_no (status : bool) : string :=
  if status then "Yes" else "No".

Definition make_row (habit : string) (info : habit_info)
    (entry : string * bool) : export_row :=
  {| row_habit := habit;
     row_category := category info;
     row_goal := goal info;
     row_date := entry.1;
     row_completed := yes_no entry.2;
     row_streak := streak info |}.

(** The inner loop over [history.items()]. *)
Definition habit_rows (habit : string) (info : habit_info)
  : list export_row :=
  make_row habit info <$> map_to_list (get_history info).

(** The outer loop over the habits; [habit_data[habit]] raises [KeyError]
    for a name without entry. *)
Fixpoint export_loop (names : list string) (hd : gmap string habit_info)
    (export_data : list export_row) : exn + list export_row :=
  match names with
  | [] => inr export_data
  | habit :: rest =>
      match hd !! habit with
      | None => inl KeyError
      | Some info => export_loop rest hd (export_data ++ habit_rows habit info)
      end
  end.

Definition export_data (st : session_state) : exn + list export_row :=
  export_loop (habits st) (habit_data st) [].

Inductive export_outcome :=
| Download (rows : list export_row)   (* st.download_button(...) *)
| NoData.                             (* "No data to export!" *)

Definition export_to_csv (st : session_state) : exn + export_outcome :=
  match export_data st with
  | inl e => inl e
  | inr [] => inr NoData
  | inr (row :: rows) => inr (Download (row :: rows))
  end.


(** Every habit has a history, and its streak lies between 0 and the
    number of dates recorded as completed. *)
Definition streaks_bounded (st : session_state) : Prop :=
  ∀ habit info,
    habit_data st !! habit = Some info →
    ∃ h, history info = Some h
         ∧ 0 ≤ streak info ≤ Z.of_nat (history_completed h).


(** The entry of a habit after the check-in block has run for it with the
    checkbox value [b]. *)
Definition checkin_entry (info : habit_info) (date_str : string) (b : bool)
  : habit_info :=
  if bool_decide (b ≠ current_status info date_str)
  then apply_checkin info date_str b
  else info.


(** The months for which the calendar block can run: those of
    [datetime.date] whose following month is one too. *)
Definition month_in_range (y m : Z) : Prop :=
  1 ≤ y ≤ 9999 ∧ 1 ≤ m ≤ 12 ∧ (y < 9999 ∨ m < 12).

(** The length of a month of the proleptic Gregorian calendar, written
    out. *)
Definition month_length (y m : Z) : Z :=
  if m =? 2 then
    if (y mod 4 =? 0) && (negb (y mod 100 =? 0) || (y mod 400 =? 0))
    then 29 else 28
  else if (m =? 4) || (m =? 6) || (m =? 9) || (m =? 11) then 30
  else 31.


(** The grid of May 2024 for [run_store_checked], and for a name that has
    no entry. *)
Definition may_2024_grid : list (list cell) :=
  Eval vm_compute in
    match calendar_grid datetime.strftime_ymd
            (habit_data run_store_checked) "run" 2024 5 with
    | inr grid => grid
    | inl _ => []
    end.

Definition may_2024_blank_grid : list (list cell) :=
  Eval vm_compute in
    match calendar_grid datetime.strftime_ymd
            (habit_data run_store_checked) "read" 2024 5 with
    | inr grid => grid
    | inl _ => []
    end.

Definition may_2024_first : day_cell :=
  {| day := 1; completed := true; date := datetime.mkdate 2024 5 1 |}.

Definition may_2024_first_blank : day_cell :=
  {| day := 1; completed := false; date := datetime.mkdate 2024 5 1 |}.


(** The rows the export shows for one name of the sequence, and the
    number of dates its history records. *)
Definition rows_of (hd : gmap string habit_info) (habit : string)
  : list export_row :=
  match hd !! habit with
  | Some info => habit_rows habit info
  | None => []
  end.

Definition recorded_dates (hd : gmap string habit_info) (habit : string)
  : nat :=
  match hd !! habit with
  | Some info => history_total (get_history info)
  | None => 0%nat
  end.

(** * Properties *)

(** ** Check-in block *)

Section checkin.

Context (st : session_state) (habit : string) (info : habit_info).
Hypothesis Hinfo : habit_data st !! habit = Some info.

(** The guard of line 115 is taken: the entry is rewritten. *)
Lemma record_checkin_changed date_str b :
  b ≠ current_status info date_str →
  record_checkin st habit date_str b =
    inr {| habits := habits st;
           habit_data :=
             <[habit := apply_checkin info date_str b]> (habit_data st) |}.
Proof.
  intros Hne. unfold record_checkin. rewrite Hinfo.
  by rewrite bool_decide_eq_true_2.
Qed.

(** The guard of line 115 is not taken: nothing is written. *)
Lemma record_checkin_same date_str b :
  b = current_status info date_str →
  record_checkin st habit date_str b = inr st.
Proof.
  intros Heq. unfold record_checkin. rewrite Hinfo.
  rewrite bool_decide_eq_false_2; [done | by intros []].
Qed.

End checkin.

Lemma current_status_recorded info date_str b :
  get_history info !! date_str = Some b → current_status info date_str = b.
Proof. unfold current_status. by intros ->. Qed.

Lemma current_status_unrecorded info date_str :
  get_history info !! date_str = None → current_status info date_str = false.
Proof. unfold current_status. by intros ->. Qed.

Lemma get_history_apply_checkin info date_str b :
  get_history (apply_checkin info date_str b) =
    <[date_str := b]> (get_history info).
Proof. unfold get_history, apply_checkin. by destruct (history info). Qed.

Lemma streak_apply_checkin info date_str b :
  streak (apply_checkin info date_str b) =
    if b then streak info + 1 else 0.
Proof. done. Qed.

(** A check-in that ticks a date with no entry: the streak goes up by one
    and the date is recorded as completed. *)
Lemma record_checkin_tick st habit info date_str :
  habit_data st !! habit = Some info →
  get_history info !! date_str = None →
  ∃ st' info',
    record_checkin st habit date_str true = inr st'
    ∧ habit_data st' !! habit = Some info'
    ∧ streak info' = streak info + 1
    ∧ get_history info' = <[date_str := true]> (get_history info).
Proof.
  intros Hinfo Hd. eexists _, _. split.
  - apply (record_checkin_changed _ _ _ Hinfo).
    by rewrite (current_status_unrecorded _ _ Hd).
  - split; [apply lookup_insert_eq |].
    by rewrite get_history_apply_checkin.
Qed.

(** An unticked box on a date with no entry equals the default status:
    the block does nothing. *)
Lemma record_checkin_untick_unrecorded st habit info date_str :
  habit_data st !! habit = Some info →
  get_history info !! date_str = None →
  record_checkin st habit date_str false = inr st.
Proof.
  intros Hinfo Hd. apply (record_checkin_same _ _ _ Hinfo).
  by rewrite (current_status_unrecorded _ _ Hd).
Qed.

(** C1 (as amended).  For a habit of the store with streak 0 and four
    pairwise distinct dates with no entry in its history, the check-ins
    true, true, false, true on those dates in order leave the streak at
    1, 2, 2 and 3: the unticked box on the third date equals the default
    status of a date without entry, so the block writes nothing and the
    streak is not reset. *)
Theorem checkin_sequence_streaks st habit info d1 d2 d3 d4 :
  habit_data st !! habit = Some info →
  streak info = 0 →
  NoDup [d1; d2; d3; d4] →
  (∀ d, d ∈ [d1; d2; d3; d4] → get_history info !! d = None) →
  streaks_after st habit [(d1, true); (d2, true); (d3, false); (d4, true)]
  = inr [Some 1; Some 2; Some 2; Some 3].
Proof.
  intros Hinfo Hs Hnd Hnew.
  apply NoDup_cons in Hnd as [Hd1 Hnd].
  apply NoDup_cons in Hnd as [Hd2 Hnd].
  apply NoDup_cons in Hnd as [Hd3 _].
  assert (d1 ≠ d2 ∧ d1 ≠ d3 ∧ d1 ≠ d4 ∧ d2 ≠ d3 ∧ d2 ≠ d4 ∧ d3 ≠ d4)
    as (H12 & H13 & H14 & H23 & H24 & H34) by set_solver.
  destruct (record_checkin_tick st habit info d1 Hinfo)
    as (st1 & info1 & E1 & L1 & S1 & G1); [apply Hnew; set_solver |].
  destruct (record_checkin_tick st1 habit info1 d2 L1)
    as (st2 & info2 & E2 & L2 & S2 & G2).
  { rewrite G1, lookup_insert_ne by done. apply Hnew; set_solver. }
  assert (get_history info2 !! d3 = None) as N3.
  { rewrite G2, G1, !lookup_insert_ne by done. apply Hnew; set_solver. }
  pose proof (record_checkin_untick_unrecorded st2 habit info2 d3 L2 N3) as E3.
  destruct (record_checkin_tick st2 habit info2 d4 L2)
    as (st4 & info4 & E4 & L4 & S4 & G4).
  { rewrite G2, G1, !lookup_insert_ne by done. apply Hnew; set_solver. }
  simpl. rewrite E1. simpl. rewrite E2. simpl. rewrite E3. simpl. rewrite E4.
  unfold streak_of. rewrite L1, L2, L4. simpl.
  rewrite S4, S2, S1, Hs. done.
Qed.

Lemma checkin_sequence_streaks_witness :
  streaks_after run_store "run"
    [("2024-05-01", true); ("2024-05-02", true);
     ("2024-05-03", false); ("2024-05-04", true)]%string
  = inr [Some 1; Some 2; Some 2; Some 3].
Proof.
  apply (checkin_sequence_streaks run_store "run"
           {| category := "Health"; goal := "Daily"; streak := 0;
              history := Some ∅ |}).
  - reflexivity.
  - reflexivity.
  - apply (bool_decide_unpack _). vm_compute. exact I.
  - intros d _. unfold get_history. simpl. apply lookup_empty.
Defined.

(** C1, as stated, fails on a new habit: the third check-in (false on a
    date without entry) leaves the streak at 2, and the fourth makes it 3,
    so the streaks are not 1, 2, 0, 1. *)
Lemma checkin_sequence_counterexample :
  streak_of run_store "run" = Some 0
  ∧ history_of run_store "run" = Some ∅
  ∧ streaks_after run_store "run"
      [("2024-05-01", true); ("2024-05-02", true);
       ("2024-05-03", false); ("2024-05-04", true)]%string
    ≠ inr [Some 1; Some 2; Some 0; Some 1].
Proof. split; [done | split; [done |]]. vm_compute. discriminate. Qed.

(** C2 (as amended).  For a habit of the store and a date with no entry
    in its history, the first check-in with true raises the streak by one
    and records the date; the second check-in with true for the same date
    finds the recorded status equal to the box and changes nothing.  From
    streak 0 the streak is 1 after both: repeated check-ins are
    idempotent. *)
Theorem checkin_twice_true st habit info date_str :
  habit_data st !! habit = Some info →
  get_history info !! date_str = None →
  ∃ st1,
    record_checkin st habit date_str true = inr st1
    ∧ streak_of st1 habit = Some (streak info + 1)
    ∧ record_checkin st1 habit date_str true = inr st1.
Proof.
  intros Hinfo Hd.
  destruct (record_checkin_tick st habit info date_str Hinfo Hd)
    as (st1 & info1 & E1 & L1 & S1 & G1).
  exists st1. split; [done |]. split.
  - unfold streak_of. rewrite L1. simpl. by rewrite S1.
  - apply (record_checkin_same _ _ _ L1). symmetry.
    apply current_status_recorded. rewrite G1. apply lookup_insert_eq.
Qed.

Lemma checkin_twice_true_witness :
  ∃ st1,
    record_checkin run_store "run" "2024-05-01" true = inr st1
    ∧ streak_of st1 "run" = Some (0 + 1)
    ∧ record_checkin st1 "run" "2024-05-01" true = inr st1.
Proof.
  apply (checkin_twice_true run_store "run"
           {| category := "Health"; goal := "Daily"; streak := 0;
              history := Some ∅ |} "2024-05-01").
  - reflexivity.
  - unfold get_history. simpl. apply lookup_empty.
Defined.

(** C2, as stated, fails on a new habit: after two check-ins with true
    for the same date the streak is 1, not 2. *)
Lemma checkin_twice_true_counterexample :
  streak_of run_store "run" = Some 0
  ∧ history_of run_store "run" = Some ∅
  ∧ streaks_after run_store "run"
      [("2024-05-01", true); ("2024-05-01", true)]%string
    = inr [Some 1; Some 1]
  ∧ streaks_after run_store "run"
      [("2024-05-01", true); ("2024-05-01", true)]%string
    ≠ inr [Some 1; Some 2].
Proof.
  split; [done | split; [done |]].
  split; vm_compute; [reflexivity | discriminate].
Qed.

(** C3.  When the history of a habit of the store records the date with
    the value b, a check-in with b for that date leaves the store as it
    is; in particular the streak is neither raised nor reset. *)
Theorem checkin_redundant_keeps_streak st habit info date_str b :
  habit_data st !! habit = Some info →
  get_history info !! date_str = Some b →
  ∃ st',
    record_checkin st habit date_str b = inr st'
    ∧ st' = st
    ∧ streak_of st' habit = Some (streak info).
Proof.
  intros Hinfo Hd. exists st. split.
  - apply (record_checkin_same _ _ _ Hinfo). symmetry.
    by apply current_status_recorded.
  - split; [done |]. unfold streak_of. by rewrite Hinfo.
Qed.


Lemma checkin_redundant_keeps_streak_witness :
  (∃ st',
     record_checkin run_store_checked "run" "2024-05-01" true = inr st'
     ∧ st' = run_store_checked
     ∧ streak_of st' "run" = Some 0)
  ∧ (∃ st',
       record_checkin run_store_checked "run" "2024-05-02" false = inr st'
       ∧ st' = run_store_checked
       ∧ streak_of st' "run" = Some 0).
Proof.
  split.
  - apply (checkin_redundant_keeps_streak run_store_checked "run"
             run_info_checked
             "2024-05-01" true); reflexivity.
  - apply (checkin_redundant_keeps_streak run_store_checked "run"
             run_info_checked
             "2024-05-02" false); reflexivity.
Defined.

(** C4 (as amended).  After a check-in with b on a habit of the store the
    status read back for the date, [history.get(date, False)], is b.  The
    history maps the date to b whenever b is true or the date had an
    entry before.  A check-in with false on a date without entry changes
    nothing: the date stays absent, no explicit false is written. *)
Theorem checkin_history_entry st habit info date_str b :
  habit_data st !! habit = Some info →
  ∃ st' info',
    record_checkin st habit date_str b = inr st'
    ∧ habit_data st' !! habit = Some info'
    ∧ current_status info' date_str = b
    ∧ (b = true ∨ is_Some (get_history info !! date_str) →
       get_history info' !! date_str = Some b)
    ∧ (b = false → get_history info !! date_str = None →
       st' = st ∧ get_history info' !! date_str = None).
Proof.
  intros Hinfo.
  destruct (decide (b = current_status info date_str)) as [Heq | Hne].
  - exists st, info. split; [by apply (record_checkin_same _ _ _ Hinfo) |].
    split; [done |]. split; [done |]. split; [| done].
    unfold current_status in Heq.
    destruct (get_history info !! date_str) as [x |] eqn:E.
    + by subst x.
    + intros [-> | [? ?]]; done.
  - eexists _, _.
    split; [by apply (record_checkin_changed _ _ _ Hinfo) |].
    split; [apply lookup_insert_eq |].
    rewrite get_history_apply_checkin.
    split; [| split].
    + apply current_status_recorded. rewrite get_history_apply_checkin.
      apply lookup_insert_eq.
    + intros _. apply lookup_insert_eq.
    + intros -> Hd. by rewrite (current_status_unrecorded _ _ Hd) in Hne.
Qed.

Lemma checkin_history_entry_witness :
  ∃ st' info',
    record_checkin run_store_checked "run" "2024-05-02" true = inr st'
    ∧ habit_data st' !! "run" = Some info'
    ∧ current_status info' "2024-05-02" = true
    ∧ (true = true ∨ is_Some (get_history run_info_checked !! "2024-05-02") →
       get_history info' !! "2024-05-02" = Some true)
    ∧ (true = false →
       get_history run_info_checked !! "2024-05-02" = None →
       st' = run_store_checked ∧ get_history info' !! "2024-05-02" = None).
Proof.
  apply (checkin_history_entry run_store_checked "run" run_info_checked
           "2024-05-02" true).
  reflexivity.
Defined.

(** C4, as stated, fails for b = false on a date without entry: the
    block writes nothing, so the history of the new habit is still empty
    and does not map the date to false. *)
Lemma checkin_history_entry_counterexample :
  habit_data run_store !! "run" =
    Some {| category := "Health"; goal := "Daily"; streak := 0;
            history := Some ∅ |}
  ∧ record_checkin run_store "run" "2024-05-01" false = inr run_store
  ∧ history_of run_store "run" = Some ∅
  ∧ (history_of run_store "run" ≫= (.!! "2024-05-01")) ≠ Some false.
Proof.
  split; [reflexivity |]. split; [vm_compute; reflexivity |].
  split; [reflexivity |]. vm_compute. discriminate.
Qed.

(** ** Add Habit handler *)

Lemma str_truthy_nonempty s : str_truthy s = true ↔ s ≠ ""%string.
Proof. destruct s; simpl; split; try done. Qed.

Lemma add_habit_added st new_habit c g :
  new_habit ≠ ""%string →
  new_habit ∉ habits st →
  add_habit st new_habit c g =
    ({| habits := habits st ++ [new_habit];
        habit_data :=
          <[new_habit := {| category := c; goal := g; streak := 0;
                            history := Some ∅ |}]> (habit_data st) |},
     Added).
Proof.
  intros Hne Hnew. unfold add_habit.
  apply str_truthy_nonempty in Hne. rewrite Hne.
  by rewrite bool_decide_eq_true_2.
Qed.

Lemma add_habit_duplicate st new_habit c g :
  new_habit ∈ habits st →
  add_habit st new_habit c g = (st, DuplicateHabit).
Proof.
  intros Hin. unfold add_habit.
  rewrite (bool_decide_eq_false_2 (new_habit ∉ habits st)) by tauto.
  rewrite andb_false_r. by rewrite bool_decide_eq_true_2.
Qed.

Lemma add_habit_empty_name st c g :
  ""%string ∉ habits st →
  add_habit st "" c g = (st, InvalidName).
Proof.
  intros Hnew. unfold add_habit. simpl.
  by rewrite bool_decide_eq_false_2.
Qed.

(** C7 (as amended).  The handler answers DuplicateHabit for every name
    already in the sequence and InvalidName for the empty name (when it is
    not in the sequence), and in both cases leaves the sequence and the
    mapping as they are.  Only the empty string is rejected as a name:
    every other name that is not in the sequence, a name made of blanks
    included, is appended and given a new entry. *)
Theorem add_habit_failures st new_habit c g :
  (new_habit ∈ habits st →
   add_habit st new_habit c g = (st, DuplicateHabit))
  ∧ (new_habit = ""%string → new_habit ∉ habits st →
     add_habit st new_habit c g = (st, InvalidName))
  ∧ (new_habit ≠ ""%string → new_habit ∉ habits st →
     (add_habit st new_habit c g).2 = Added
     ∧ habits (add_habit st new_habit c g).1 = habits st ++ [new_habit]
     ∧ habit_data (add_habit st new_habit c g).1 !! new_habit =
         Some {| category := c; goal := g; streak := 0;
                 history := Some ∅ |})
  ∧ ((add_habit st new_habit c g).2 ≠ Added →
     (add_habit st new_habit c g).1 = st).
Proof.
  split; [apply add_habit_duplicate |].
  split; [intros ->; apply add_habit_empty_name |].
  split.
  - intros Hne Hnew. rewrite add_habit_added by done. simpl.
    split; [done |]. split; [done |]. apply lookup_insert_eq.
  - destruct (decide (new_habit ∈ habits st)) as [Hin | Hnew].
    + by rewrite add_habit_duplicate.
    + destruct (decide (new_habit = ""%string)) as [-> | Hne].
      * by rewrite add_habit_empty_name.
      * by rewrite add_habit_added.
Qed.

Lemma add_habit_failures_witness :
  add_habit run_store "run" "Other" "Weekly" = (run_store, DuplicateHabit)
  ∧ add_habit run_store "" "Other" "Weekly" = (run_store, InvalidName)
  ∧ (add_habit run_store "   " "Other" "Weekly").2 = Added.
Proof.
  split; [| split].
  - apply (add_habit_failures run_store "run" "Other" "Weekly").
    apply (bool_decide_unpack _). vm_compute. exact I.
  - apply (add_habit_failures run_store "" "Other" "Weekly").
    + reflexivity.
    + apply (bool_decide_unpack _). vm_compute. exact I.
  - apply (add_habit_failures run_store "   " "Other" "Weekly").
    + discriminate.
    + apply (bool_decide_unpack _). vm_compute. exact I.
Defined.

(** C7, as stated, fails for a name made of one blank: it is a non-empty
    string, so the handler adds it to the empty store instead of
    answering InvalidName, and the store changes. *)
Lemma add_habit_blank_counterexample :
  add_habit empty_state " " "Health" "Daily" =
    ({| habits := [" "%string];
        habit_data := {[ " "%string :=
                          {| category := "Health"; goal := "Daily";
                             streak := 0; history := Some ∅ |} ]} |},
     Added)
  ∧ (add_habit empty_state " " "Health" "Daily").2 ≠ InvalidName
  ∧ (add_habit empty_state " " "Health" "Daily").1 ≠ empty_state.
Proof.
  split; [reflexivity |]. split; [discriminate |].
  intros H. apply (f_equal habits) in H. discriminate.
Qed.

(** ** The name sequence and the mapping stay in sync *)

Lemma in_sync_dom st :
  in_sync st ↔ list_to_set (habits st) =@{gset string} dom (habit_data st).
Proof.
  unfold in_sync. split.
  - intros H. apply set_eq. intros name.
    by rewrite elem_of_list_to_set, elem_of_dom.
  - intros H name. by rewrite <- elem_of_dom, <- H, elem_of_list_to_set.
Qed.

Lemma in_sync_b_spec st : in_sync_b st = true ↔ in_sync st.
Proof. unfold in_sync_b. by rewrite bool_decide_eq_true, in_sync_dom. Qed.

Lemma list_remove_spec x l l' :
  list_remove x l = Some l' →
  x ∈ l ∧ (NoDup l → NoDup l' ∧ ∀ y, y ∈ l' ↔ y ∈ l ∧ y ≠ x).
Proof.
  revert l'. induction l as [| y l IH]; intros l' H; simpl in H; [done |].
  destruct (decide (y = x)) as [-> | Hne].
  - injection H as <-. split; [left |].
    intros [Hx Hnd]%NoDup_cons. split; [done |].
    intros z. rewrite elem_of_cons. split; [| naive_solver].
    intros Hz. split; [by right | by intros ->].
  - destruct (list_remove x l) as [l1 |] eqn:E; [| done].
    injection H as <-. destruct (IH l1 eq_refl) as [Hin Hrest].
    split; [by right |].
    intros [Hy Hnd]%NoDup_cons. destruct (Hrest Hnd) as [Hnd1 Hmem].
    split.
    + apply NoDup_cons. split; [| done]. rewrite Hmem. tauto.
    + intros z. rewrite !elem_of_cons, Hmem. naive_solver.
Qed.

Lemma list_remove_none x l : list_remove x l = None ↔ x ∉ l.
Proof.
  induction l as [| y l IH]; simpl.
  - split; [intros _; apply not_elem_of_nil | done].
  - destruct (decide (y = x)) as [-> | Hne].
    + split; [done |]. intros []. left.
    + rewrite not_elem_of_cons, <- IH.
      destruct (list_remove x l); simpl; naive_solver.
Qed.

Lemma add_habit_keeps_sync st n c g :
  in_sync st → in_sync (add_habit st n c g).1.
Proof.
  intros Hs. destruct (decide (n ∈ habits st)) as [Hin | Hnew].
  { by rewrite add_habit_duplicate. }
  destruct (decide (n = ""%string)) as [-> | Hne].
  { by rewrite add_habit_empty_name. }
  rewrite add_habit_added by done. intros name. simpl.
  rewrite elem_of_app, list_elem_of_singleton, lookup_insert_is_Some, (Hs name).
  destruct (decide (n = name)); naive_solver.
Qed.

Lemma add_habit_keeps_unique st n c g :
  unique_names st → unique_names (add_habit st n c g).1.
Proof.
  unfold unique_names. intros Hnd.
  destruct (decide (n ∈ habits st)) as [Hin | Hnew].
  { by rewrite add_habit_duplicate. }
  destruct (decide (n = ""%string)) as [-> | Hne].
  { by rewrite add_habit_empty_name. }
  rewrite add_habit_added by done. simpl.
  apply NoDup_app. split; [done |]. split; [| apply NoDup_singleton].
  intros x Hx ->%list_elem_of_singleton. done.
Qed.

Lemma remove_habit_keeps_sync st n st' :
  unique_names st → in_sync st → remove_habit st n = inr st' →
  in_sync st' ∧ unique_names st'.
Proof.
  unfold unique_names, remove_habit. intros Hnd Hs H.
  destruct (list_remove n (habits st)) as [l |] eqn:E; [| done].
  injection H as <-.
  destruct (list_remove_spec _ _ _ E) as [Hin Hrest].
  destruct (Hrest Hnd) as [Hnd' Hmem]. split; [| done].
  intros name. simpl. rewrite Hmem.
  rewrite bool_decide_eq_true_2 by (by apply Hs).
  rewrite lookup_delete_is_Some, (Hs name). naive_solver.
Qed.

Lemma record_checkin_keeps_names st n d b st' :
  record_checkin st n d b = inr st' →
  habits st' = habits st
  ∧ ∀ name, is_Some (habit_data st' !! name) ↔ is_Some (habit_data st !! name).
Proof.
  unfold record_checkin. intros H.
  destruct (habit_data st !! n) as [info |] eqn:E; [| done].
  case_bool_decide; injection H as <-; [| done].
  split; [done |]. intros name. simpl.
  rewrite lookup_insert_is_Some.
  destruct (decide (n = name)) as [<- | ?]; [rewrite E |]; naive_solver.
Qed.

(** C10.  On a store whose sequence lists no name twice and is in sync
    with the mapping, each of the three mutations (add, remove, check-in)
    gives a store that is again in sync: every name of the sequence has an
    entry in the mapping and every key of the mapping is in the sequence.
    The sequence still lists no name twice. *)
Theorem mutations_keep_sync st m st' :
  unique_names st →
  in_sync st →
  apply_mutation st m = inr st' →
  in_sync st' ∧ unique_names st'.
Proof.
  intros Hnd Hs H. destruct m as [n c g | n | n d b]; simpl in H.
  - injection H as <-.
    split; [by apply add_habit_keeps_sync | by apply add_habit_keeps_unique].
  - by apply (remove_habit_keeps_sync st n).
  - destruct (record_checkin_keeps_names _ _ _ _ _ H) as [Hl Hk].
    unfold unique_names, in_sync. rewrite Hl. split; [| done].
    intros name. by rewrite Hk, (Hs name).
Qed.

Lemma mutations_keep_sync_witness :
  in_sync empty_state ∧ unique_names empty_state.
Proof.
  apply (mutations_keep_sync run_store (Remove "run") empty_state).
  - unfold unique_names. apply (bool_decide_unpack _). vm_compute. exact I.
  - apply in_sync_b_spec. vm_compute. reflexivity.
  - vm_compute. reflexivity.
Defined.

(** Every store the handlers build from the empty store is in sync and
    lists no name twice. *)
Lemma reachable_in_sync st :
  reachable st → in_sync st ∧ unique_names st.
Proof.
  induction 1 as [| st m st' _ [IHs IHu] Hstep].
  - split; [| apply NoDup_nil_2].
    intros name. simpl. rewrite lookup_empty, elem_of_nil.
    split; [done | by intros [? ?]].
  - by apply (mutations_keep_sync st m).
Qed.

(** The check-in loop of one run of the script: on a store in sync no
    lookup fails, and the names stay as they are. *)
Lemma checkin_loop_keeps_names names st date_str checkbox :
  (∀ name, name ∈ names → is_Some (habit_data st !! name)) →
  ∃ st',
    checkin_loop names st date_str checkbox = inr st'
    ∧ habits st' = habits st
    ∧ ∀ name, is_Some (habit_data st' !! name)
              ↔ is_Some (habit_data st !! name).
Proof.
  revert st. induction names as [| n names IH]; intros st Hin; simpl.
  - by exists st.
  - destruct (Hin n) as [info Hinfo]; [left |].
    destruct (record_checkin st n date_str (checkbox n)) as [e | st1] eqn:E.
    { unfold record_checkin in E. rewrite Hinfo in E.
      by case_bool_decide. }
    destruct (record_checkin_keeps_names _ _ _ _ _ E) as [Hl Hk].
    destruct (IH st1) as (st' & E' & Hl' & Hk').
    { intros name Hname. apply Hk, Hin. by right. }
    exists st'. split; [done |]. split; [congruence |].
    intros name. by rewrite Hk', Hk.
Qed.

Lemma daily_checkin_keeps_sync st date_str checkbox :
  in_sync st →
  ∃ st', daily_checkin st date_str checkbox = inr st'
         ∧ habits st' = habits st ∧ in_sync st'.
Proof.
  intros Hs.
  destruct (checkin_loop_keeps_names (habits st) st date_str checkbox)
    as (st' & E & Hl & Hk); [intros name; apply Hs |].
  exists st'. split; [done |]. split; [done |].
  intros name. by rewrite Hl, Hk, (Hs name).
Qed.

(** Without the uniqueness of the names the remove handler can break the
    sync: [list.remove] drops one occurrence and the entry is deleted. *)
Example remove_duplicate_name :
  let st := {| habits := ["run"; "run"];
               habit_data := habit_data run_store |} in
  in_sync st
  ∧ ∃ st', remove_habit st "run" = inr st' ∧ ¬ in_sync st'.
Proof.
  split.
  - apply in_sync_b_spec. vm_compute. reflexivity.
  - eexists. split; [vm_compute; reflexivity |].
    rewrite <- in_sync_b_spec. vm_compute. discriminate.
Qed.

(** ** Persistence *)

Lemma fresh_session_empty : fresh_session = py_of_state empty_state.
Proof. reflexivity. Qed.

Lemma mapM_as_str (l : list string) : mapM as_str (PyStr <$> l) = Some l.
Proof. by apply mapM_fmap_Some. Qed.

Lemma dict_values_fmap {A} (f : pyval → option A) (g : A → pyval)
    (m : gmap string A) :
  (∀ x, f (g x) = Some x) →
  dict_values f (g <$> m) = Some m.
Proof.
  intros Hfg. unfold dict_values.
  rewrite bool_decide_eq_true_2.
  - f_equal. apply map_eq. intros k.
    rewrite lookup_omap, lookup_fmap.
    destruct (m !! k); simpl; [apply Hfg | done].
  - intros k v. rewrite lookup_fmap.
    destruct (m !! k); simpl; [| done].
    intros [= <-]. rewrite Hfg. eauto.
Qed.

Lemma history_of_py_of_history h : history_of_py (py_of_history h) = Some h.
Proof. unfold history_of_py. simpl. by apply dict_values_fmap. Qed.

Lemma info_fields_lookup info :
  info_fields info !! "category" = Some (PyStr (category info))
  ∧ info_fields info !! "goal" = Some (PyStr (goal info))
  ∧ info_fields info !! "streak" = Some (PyInt (streak info))
  ∧ info_fields info !! "history" = None
  ∧ size (info_fields info) = 3%nat.
Proof.
  unfold info_fields.
  split; [by rewrite lookup_insert_eq |].
  split; [by rewrite lookup_insert_ne, lookup_insert_eq |].
  split.
  { do 2 (rewrite lookup_insert_ne by done). by rewrite lookup_insert_eq. }
  split.
  { do 3 (rewrite lookup_insert_ne by done). by rewrite lookup_empty. }
  rewrite map_size_insert_None
    by (do 2 (rewrite lookup_insert_ne by done); apply lookup_empty).
  rewrite map_size_insert_None
    by (rewrite lookup_insert_ne by done; apply lookup_empty).
  rewrite map_size_insert_None by apply lookup_empty.
  by rewrite map_size_empty.
Qed.

Lemma info_of_py_of_info info : info_of_py (py_of_info info) = Some info.
Proof.
  destruct (info_fields_lookup info) as (Hc & Hg & Hs & Hh & Hn).
  unfold info_of_py, py_of_info.
  destruct info as [c g s [h |]];
    cbn [history category goal streak as_dict mbind option_bind] in *.
  - rewrite (lookup_insert_ne _ "history" "category") by done.
    rewrite (lookup_insert_ne _ "history" "goal") by done.
    rewrite (lookup_insert_ne _ "history" "streak") by done.
    rewrite Hc, Hg, Hs.
    cbn [as_str as_int mbind option_bind].
    rewrite lookup_insert_eq, history_of_py_of_history.
    cbn [mbind option_bind].
    by rewrite map_size_insert_None, Hn.
  - rewrite Hc, Hg, Hs, Hh. cbn [as_str as_int mbind option_bind].
    by rewrite Hn.
Qed.

Lemma state_of_py_of_state st : state_of_py (py_of_state st) = Some st.
Proof.
  destruct st as [l hd]. unfold state_of_py, py_of_state. simpl.
  rewrite mapM_as_str. simpl.
  rewrite (dict_values_fmap info_of_py py_of_info hd info_of_py_of_info).
  done.
Qed.

(** Whatever the session held, [save_data] leaves the file holding the
    two session entries, and [load_data] assigns them back. *)
Lemma load_after_save (s s0 : py_session) (r : resource) :
  load_data {| session := s0;
               file := file (save_data {| session := s; file := r |}).2 |}
  = (inr tt,
     {| session := s;
        file := file (save_data {| session := s; file := r |}).2 |}).
Proof. destruct s as [h d]. reflexivity. Qed.

(** C9.  For every store, [save_data] followed by [load_data] (into any
    session, over any previous file) raises nothing and leaves the session
    holding the saved store: read back, it has the same name sequence and
    the same mapping, with the category, goal, streak and history of every
    habit. *)
Theorem save_load_roundtrip (st : session_state) (r : resource)
    (s0 : py_session) :
  ∃ s,
    save_then_load st r s0 = (inr tt, s)
    ∧ s = py_of_state st
    ∧ state_of_py s = Some st.
Proof.
  exists (py_of_state st). split; [| split; [done |]].
  - unfold save_then_load.
    destruct (save_data {| session := py_of_state st; file := r |})
      as [res e1] eqn:E1.
    pose proof (load_after_save (py_of_state st) s0 r) as H.
    rewrite E1 in H. simpl in H. by rewrite H.
  - apply state_of_py_of_state.
Qed.

(** *** Start of the script *)

Lemma load_data_absent s0 :
  load_data {| session := s0; file := None |}
  = (inr tt, {| session := s0; file := None |}).
Proof. reflexivity. Qed.

Lemma load_data_unparsable s0 :
  load_data {| session := s0; file := Some Unparsable |}
  = (inl JSONDecodeError, {| session := s0; file := Some Unparsable |}).
Proof. reflexivity. Qed.

Lemma load_data_no_habits s0 data e :
  py_getitem data "habits" = inl e →
  load_data {| session := s0; file := Some (Document data) |}
  = (inl e, {| session := s0; file := Some (Document data) |}).
Proof.
  intros H. unfold load_data, bind, path_exists, json_load. simpl.
  by rewrite H.
Qed.

Lemma load_data_both_keys s0 data h d :
  py_getitem data "habits" = inr h →
  py_getitem data "habit_data" = inr d →
  load_data {| session := s0; file := Some (Document data) |}
  = (inr tt, {| session := {| py_habits := h; py_habit_data := d |};
                file := Some (Document data) |}).
Proof.
  intros Hh Hd. unfold load_data, bind, path_exists, json_load. simpl.
  rewrite Hh. simpl. by rewrite Hd.
Qed.

(** C8 (as amended).  With no file the first run leaves the store empty
    and shows no warning.  A file that [json.load] cannot decode, or whose
    document is not a dict or has no key "habits", makes [load_data]
    raise; the script shows the warning and the store stays empty.  A
    document with both keys is taken as it is: its two values become the
    session entries without any check of their shape and without a
    warning. *)
Theorem startup_outcomes :
  startup None = (py_of_state empty_state, false)
  ∧ startup (Some Unparsable) = (py_of_state empty_state, true)
  ∧ (∀ data e,
       py_getitem data "habits" = inl e →
       startup (Some (Document data)) = (py_of_state empty_state, true))
  ∧ (∀ data h d,
       py_getitem data "habits" = inr h →
       py_getitem data "habit_data" = inr d →
       startup (Some (Document data))
       = ({| py_habits := h; py_habit_data := d |}, false)).
Proof.
  split; [reflexivity |]. split; [reflexivity |]. split.
  - intros data e H. unfold startup, try_load.
    by rewrite (load_data_no_habits _ _ _ H).
  - intros data h d Hh Hd. unfold startup, try_load.
    by rewrite (load_data_both_keys _ _ _ _ Hh Hd).
Qed.

Lemma startup_outcomes_witness :
  startup (Some (Document (PyList [PyStr "run"])))
    = (py_of_state empty_state, true)
  ∧ startup (Some (Document (PyDict ∅))) = (py_of_state empty_state, true)
  ∧ startup (Some (Document misshapen_document))
    = ({| py_habits := PyInt 5; py_habit_data := PyNone |}, false).
Proof.
  destruct startup_outcomes as (_ & _ & Hraise & Hboth).
  split; [| split].
  - apply (Hraise (PyList [PyStr "run"]) TypeError). reflexivity.
  - apply (Hraise (PyDict ∅) KeyError). reflexivity.
  - apply (Hboth misshapen_document (PyInt 5) PyNone); reflexivity.
Defined.

(** C8, as stated, fails on a file whose document has both keys but not
    the shape of a store: nothing is raised, no warning is shown, and the
    session after the first run is not the empty store (it is not a store
    at all). *)
Lemma startup_misshapen_counterexample :
  (∀ st, py_of_state st ≠
         {| py_habits := PyInt 5; py_habit_data := PyNone |})
  ∧ startup (Some (Document misshapen_document))
    = ({| py_habits := PyInt 5; py_habit_data := PyNone |}, false)
  ∧ (startup (Some (Document misshapen_document))).1
    ≠ py_of_state empty_state
  ∧ state_of_py (startup (Some (Document misshapen_document))).1 = None.
Proof.
  split; [intros st H; discriminate |].
  split; [reflexivity |].
  split; [discriminate | reflexivity].
Qed.

(** On a document with "habits" but without "habit_data" the first
    assignment of [load_data] is made before the second lookup raises:
    the warning is shown and the name sequence is the one of the file. *)
Example startup_truncated :
  startup (Some (Document truncated_document))
  = ({| py_habits := PyList [PyStr "run"]; py_habit_data := PyDict ∅ |},
     true).
Proof. reflexivity. Qed.

(** ** Calendar view *)

Lemma cycle_checked :
  forallb (λ y, forallb (last_day_checked y) (seqZ 1 12)) (seqZ 1 400)
  = true.
Proof. vm_compute. reflexivity. Qed.

Lemma forallb_seqZ (f : Z → bool) (a n x : Z) :
  forallb f (seqZ a n) = true → a ≤ x < a + n → f x = true.
Proof.
  intros H Hx. rewrite forallb_forall in H. apply H.
  apply list_elem_of_In, elem_of_seqZ. lia.
Qed.

Lemma forallb_seqZ_2 (f : Z → Z → bool) (a n b k x z : Z) :
  forallb (λ y, forallb (f y) (seqZ b k)) (seqZ a n) = true →
  a ≤ x < a + n → b ≤ z < b + k → f x z = true.
Proof.
  intros H Hx Hz. apply (forallb_seqZ (f x) b k z); [| done].
  by apply (forallb_seqZ (λ y, forallb (f y) (seqZ b k)) a n x).
Qed.

Lemma last_day_checked_spec y m :
  last_day_checked y m = true →
  datetime.ord2ymd (datetime.ymd2ord y m (datetime.days_in_month y m))
  = (y, m, datetime.days_in_month y m).
Proof.
  unfold last_day_checked.
  destruct (datetime.ord2ymd _) as [[y' m'] d'].
  intros H. apply andb_true_iff in H as [H Hd].
  apply andb_true_iff in H as [Hy1 Hm1].
  apply Z.eqb_eq in Hd, Hy1, Hm1. by subst.
Qed.

Lemma last_day_checked_cycle y m :
  1 ≤ y ≤ 400 → 1 ≤ m ≤ 12 →
  datetime.ord2ymd (datetime.ymd2ord y m (datetime.days_in_month y m))
  = (y, m, datetime.days_in_month y m).
Proof.
  intros Hy Hm. apply last_day_checked_spec.
  apply (forallb_seqZ_2 last_day_checked 1 400 1 12 y m cycle_checked); lia.
Qed.

(** The calendar repeats every 400 years, that is every 146097 days. *)

Lemma is_leap_period y k :
  datetime.is_leap (y + 400 * k) = datetime.is_leap y.
Proof.
  unfold datetime.is_leap.
  replace (y + 400 * k) with (y + (100 * k) * 4) at 1 by lia.
  replace (y + 400 * k) with (y + (4 * k) * 100) at 1 by lia.
  replace (y + 400 * k) with (y + k * 400) by lia.
  by rewrite !Z_mod_plus_full.
Qed.

Lemma days_in_month_period y m k :
  datetime.days_in_month (y + 400 * k) m = datetime.days_in_month y m.
Proof. unfold datetime.days_in_month. by rewrite is_leap_period. Qed.

Lemma ymd2ord_period y m d k :
  datetime.ymd2ord (y + 400 * k) m d
  = datetime.ymd2ord y m d + datetime.DI400Y * k.
Proof.
  unfold datetime.ymd2ord, datetime.days_before_month,
    datetime.days_before_year, datetime.DI400Y.
  rewrite is_leap_period.
  replace (y + 400 * k - 1) with (y - 1 + (100 * k) * 4) at 2 by lia.
  replace (y + 400 * k - 1) with (y - 1 + (4 * k) * 100) at 2 by lia.
  replace (y + 400 * k - 1) with (y - 1 + k * 400) at 2 by lia.
  rewrite !Z.div_add by done. lia.
Qed.

Lemma ord2ymd_period n k y m d :
  datetime.ord2ymd n = (y, m, d) →
  datetime.ord2ymd (n + datetime.DI400Y * k) = (y + 400 * k, m, d).
Proof.
  unfold datetime.ord2ymd.
  replace (n + datetime.DI400Y * k - 1)
    with (n - 1 + k * datetime.DI400Y) by lia.
  rewrite Z.div_add, Z_mod_plus_full by done.
  cbv zeta.
  repeat match goal with
         | |- context [if ?b then _ else _] => destruct b
         end;
    intros [= <- <- <-]; f_equal; f_equal; lia.
Qed.

Lemma ord2ymd_last_day y m :
  1 ≤ y → 1 ≤ m ≤ 12 →
  datetime.ord2ymd (datetime.ymd2ord y m (datetime.days_in_month y m))
  = (y, m, datetime.days_in_month y m).
Proof.
  intros Hy Hm.
  pose proof (Z.div_mod (y - 1) 400 ltac:(done)) as Hdiv.
  pose proof (Z.mod_pos_bound (y - 1) 400 ltac:(done)) as Hmod.
  set (k := (y - 1) / 400) in *. set (y0 := (y - 1) mod 400 + 1).
  replace y with (y0 + 400 * k) by (unfold y0; lia).
  rewrite days_in_month_period, ymd2ord_period.
  apply ord2ymd_period, last_day_checked_cycle; unfold y0; lia.
Qed.

Ltac month_cases m H :=
  assert (m = 1 ∨ m = 2 ∨ m = 3 ∨ m = 4 ∨ m = 5 ∨ m = 6 ∨ m = 7 ∨ m = 8
          ∨ m = 9 ∨ m = 10 ∨ m = 11 ∨ m = 12) as H by lia;
  repeat destruct H as [-> | H]; [.. | subst m].

Lemma days_in_month_bounds y m :
  1 ≤ m ≤ 12 → 28 ≤ datetime.days_in_month y m ≤ 31.
Proof.
  intros Hm. unfold datetime.days_in_month. month_cases m H;
    simpl; try destruct (datetime.is_leap y); simpl; lia.
Qed.

(** The day before the first of the next month is the last day of the
    month. *)
Lemma ymd2ord_next_month y m :
  1 ≤ m < 12 →
  datetime.ymd2ord y (m + 1) 1 - 1
  = datetime.ymd2ord y m (datetime.days_in_month y m).
Proof.
  intros Hm.
  unfold datetime.ymd2ord, datetime.days_before_month,
    datetime.days_in_month.
  month_cases m H; try lia; simpl; destruct (datetime.is_leap y); simpl; lia.
Qed.

Lemma days_before_next_year y :
  datetime.days_before_year (y + 1)
  = datetime.days_before_year y + 365
    + (if datetime.is_leap y then 1 else 0).
Proof.
  unfold datetime.days_before_year, datetime.is_leap. cbv zeta.
  replace (y + 1 - 1) with y by lia.
  pose proof (Z.div_mod y 4 ltac:(done)).
  pose proof (Z.mod_pos_bound y 4 ltac:(done)).
  pose proof (Z.div_mod y 100 ltac:(done)).
  pose proof (Z.mod_pos_bound y 100 ltac:(done)).
  pose proof (Z.div_mod y 400 ltac:(done)).
  pose proof (Z.mod_pos_bound y 400 ltac:(done)).
  pose proof (Z.div_mod (y - 1) 4 ltac:(done)).
  pose proof (Z.mod_pos_bound (y - 1) 4 ltac:(done)).
  pose proof (Z.div_mod (y - 1) 100 ltac:(done)).
  pose proof (Z.mod_pos_bound (y - 1) 100 ltac:(done)).
  pose proof (Z.div_mod (y - 1) 400 ltac:(done)).
  pose proof (Z.mod_pos_bound (y - 1) 400 ltac:(done)).
  destruct (Z.eqb_spec (y mod 4) 0), (Z.eqb_spec (y mod 100) 0),
    (Z.eqb_spec (y mod 400) 0); simpl; lia.
Qed.

Lemma ymd2ord_next_year y :
  datetime.ymd2ord (y + 1) 1 1 - 1
  = datetime.ymd2ord y 12 (datetime.days_in_month y 12).
Proof.
  unfold datetime.ymd2ord. rewrite days_before_next_year.
  unfold datetime.days_before_month, datetime.days_in_month. simpl.
  destruct (datetime.is_leap y); simpl; lia.
Qed.

Lemma days_before_year_bounds y :
  1 ≤ y ≤ 10000 → 0 ≤ datetime.days_before_year y ≤ 3652059.
Proof.
  intros Hy. unfold datetime.days_before_year. cbv zeta.
  pose proof (Z.div_mod (y - 1) 4 ltac:(done)).
  pose proof (Z.mod_pos_bound (y - 1) 4 ltac:(done)).
  pose proof (Z.div_mod (y - 1) 100 ltac:(done)).
  pose proof (Z.mod_pos_bound (y - 1) 100 ltac:(done)).
  pose proof (Z.div_mod (y - 1) 400 ltac:(done)).
  pose proof (Z.mod_pos_bound (y - 1) 400 ltac:(done)).
  lia.
Qed.

Lemma ymd2ord_last_day_bounds y m :
  1 ≤ y ≤ 9999 → 1 ≤ m ≤ 12 →
  0 < datetime.ymd2ord y m (datetime.days_in_month y m)
    ≤ datetime.MAXORDINAL.
Proof.
  intros Hy Hm. pose proof (days_before_year_bounds y ltac:(lia)) as Hb.
  pose proof (days_before_year_bounds (y + 1) ltac:(lia)) as Hb'.
  rewrite days_before_next_year in Hb'.
  unfold datetime.ymd2ord, datetime.days_before_month,
    datetime.days_in_month, datetime.MAXORDINAL.
  month_cases m H; simpl; destruct (datetime.is_leap y); simpl; lia.
Qed.

Lemma new_valid y m d :
  1 ≤ y ≤ 9999 → 1 ≤ m ≤ 12 → 1 ≤ d ≤ datetime.days_in_month y m →
  datetime.new y m d = inr (datetime.mkdate y m d).
Proof.
  intros Hy Hm Hd. pose proof (days_in_month_bounds y m Hm).
  unfold datetime.new, datetime.fits_int, datetime.MINYEAR, datetime.MAXYEAR.
  repeat match goal with
         | |- context [?a <=? ?b] =>
             rewrite (proj2 (Z.leb_le a b)) by lia
         end.
  done.
Qed.

(** The first of the month after December 9999 is outside the range of
    [datetime.date]. *)
Lemma new_out_of_range : datetime.new 10000 1 1 = inl ValueError.
Proof. reflexivity. Qed.

(** [num_days] is the length of the month, for every month whose
    successor is in the range of [datetime.date]. *)
Lemma num_days_spec y m :
  1 ≤ y ≤ 9999 → 1 ≤ m ≤ 12 → y < 9999 ∨ m < 12 →
  num_days y m = inr (datetime.days_in_month y m).
Proof.
  intros Hy Hm Hlast.
  pose proof (days_in_month_bounds y m Hm) as Hdim.
  pose proof (ymd2ord_last_day_bounds y m Hy Hm) as Hord.
  pose proof (ord2ymd_last_day y m ltac:(lia) Hm) as Hinv.
  unfold num_days. destruct (Z.eqb_spec m 12) as [-> | Hne].
  - rewrite new_valid;
      [| lia | lia | pose proof (days_in_month_bounds (y + 1) 1); lia].
    unfold datetime.sub_days, datetime.toordinal. simpl datetime.year.
    simpl datetime.month. simpl datetime.day.
    rewrite ymd2ord_next_year.
    rewrite (proj2 (Z.ltb_lt _ _)), (proj2 (Z.leb_le _ _)) by lia.
    simpl andb. cbv iota. unfold datetime.fromordinal. rewrite Hinv.
    by rewrite new_valid by lia.
  - rewrite new_valid;
      [| lia | lia | pose proof (days_in_month_bounds y (m + 1)); lia].
    unfold datetime.sub_days, datetime.toordinal. simpl datetime.year.
    simpl datetime.month. simpl datetime.day.
    rewrite ymd2ord_next_month by lia.
    rewrite (proj2 (Z.ltb_lt _ _)), (proj2 (Z.leb_le _ _)) by lia.
    simpl andb. cbv iota. unfold datetime.fromordinal. rewrite Hinv.
    by rewrite new_valid by lia.
Qed.

(** *** The grid loops *)

Lemma leading_cells_replicate w :
  leading_cells w = replicate (Z.to_nat w) None.
Proof.
  unfold leading_cells. induction (Z.to_nat w) as [| n IH]; [done |].
  simpl. rewrite IH. clear IH.
  induction n as [| n IH]; [done |]. simpl. by rewrite IH.
Qed.

Lemma pad_week_replicate fuel week :
  (7 - length week ≤ fuel)%nat →
  pad_week fuel week = week ++ replicate (7 - length week) None.
Proof.
  revert week. induction fuel as [| fuel IH]; intros week Hfuel; simpl.
  - destruct (Nat.ltb_spec (length week) 7); [lia |].
    replace (7 - length week)%nat with 0%nat by lia.
    by rewrite app_nil_r.
  - destruct (Nat.ltb_spec (length week) 7) as [Hlt | Hge].
    + rewrite IH by (rewrite length_app; simpl; lia).
      rewrite length_app. simpl. rewrite <- app_assoc. f_equal.
      replace (7 - length week)%nat with (S (7 - (length week + 1)))
        by lia.
      done.
    + replace (7 - length week)%nat with 0%nat by lia.
      by rewrite app_nil_r.
Qed.

Lemma day_status_history hd selected_habit info date_str :
  hd !! selected_habit = Some info →
  day_status hd selected_habit date_str
  = default false (get_history info !! date_str).
Proof.
  intros H. unfold day_status, get_history. rewrite H.
  destruct (history info); simpl; [done |]. by rewrite lookup_empty.
Qed.

Section fill_days.

Context (strftime : datetime.date → string).
Context (hd : gmap string habit_info) (selected_habit : string) (y m : Z).

Let day_of (d : Z) : cell :=
  make_cell strftime hd selected_habit d (datetime.mkdate y m d).

(** The loop keeps every finished week at seven cells, keeps the open
    week shorter than seven, and appends the days in order. *)
Lemma fill_days_spec days calendar_data week :
  (∀ d, d ∈ days → datetime.new y m d = inr (datetime.mkdate y m d)) →
  Forall (λ w, length w = 7%nat) calendar_data →
  (length week < 7)%nat →
  ∃ calendar_data' week',
    fill_days strftime hd selected_habit y m days calendar_data week
    = inr (calendar_data', week')
    ∧ Forall (λ w, length w = 7%nat) calendar_data'
    ∧ (length week' < 7)%nat
    ∧ concat calendar_data' ++ week'
      = concat calendar_data ++ week ++ (day_of <$> days).
Proof.
  revert calendar_data week.
  induction days as [| d days IH]; intros calendar_data week Hnew Hcal Hweek.
  - exists calendar_data, week. simpl. by rewrite app_nil_r.
  - simpl. rewrite (Hnew d) by left.
    assert (∀ d', d' ∈ days →
                  datetime.new y m d' = inr (datetime.mkdate y m d'))
      as Hnew' by (intros d' Hd'; apply Hnew; by right).
    destruct (Nat.eqb_spec
                (length (week ++ [make_cell strftime hd selected_habit d
                                    (datetime.mkdate y m d)])) 7)
      as [Hfull | Hopen].
    + destruct (IH (calendar_data
                      ++ [week ++ [make_cell strftime hd selected_habit d
                                     (datetime.mkdate y m d)]]) [] Hnew')
        as (cal' & week' & E & Hcal' & Hweek' & Hcat).
      { apply Forall_app. split; [done |]. by apply Forall_singleton. }
      { simpl. lia. }
      exists cal', week'. split; [done |]. split; [done |].
      split; [done |]. rewrite Hcat, concat_app. simpl.
      unfold day_of. by rewrite !app_nil_r, <- !app_assoc.
    + destruct (IH calendar_data
                  (week ++ [make_cell strftime hd selected_habit d
                              (datetime.mkdate y m d)]) Hnew' Hcal)
        as (cal' & week' & E & Hcal' & Hweek' & Hcat).
      { rewrite length_app in *. simpl in *. lia. }
      exists cal', week'. split; [done |]. split; [done |].
      split; [done |]. rewrite Hcat. unfold day_of.
      by rewrite <- !app_assoc.
Qed.

End fill_days.

(** A grid of weeks of seven cells whose cells, read in order, are a
    short padding, a block and a short padding: the first week starts
    with the first padding and the block, the last week ends with the
    block and the second padding. *)
Lemma padded_grid_weeks {A} (grid : list (list A)) (pre mid post : list A) :
  Forall (λ w, length w = 7%nat) grid →
  concat grid = pre ++ mid ++ post →
  mid ≠ [] →
  (length pre ≤ 6)%nat →
  (length post ≤ 6)%nat →
  (∃ first_week,
     head grid = Some first_week
     ∧ take (length pre) first_week = pre
     ∧ first_week !! length pre = head mid)
  ∧ (∃ last_week,
       last grid = Some last_week
       ∧ drop (7 - length post) last_week = post
       ∧ last_week !! (6 - length post)%nat = last mid).
Proof.
  intros Hweeks Hcat Hmid Hpre Hpost. split.
  - destruct grid as [| fw rest].
    { simpl in Hcat. symmetry in Hcat.
      apply app_eq_nil in Hcat as [_ [? _]%app_eq_nil]. done. }
    apply Forall_cons in Hweeks as [Hfw _]. simpl in Hcat.
    exists fw. split; [done |]. split.
    + rewrite <- (take_app_le fw (concat rest)) by lia.
      rewrite Hcat. by rewrite take_app_length.
    + rewrite <- (lookup_app_l fw (concat rest)) by lia.
      rewrite Hcat, lookup_app_r by lia.
      rewrite Nat.sub_diag. by destruct mid.
  - destruct grid as [| w0 rest] using rev_ind.
    { simpl in Hcat. symmetry in Hcat.
      apply app_eq_nil in Hcat as [_ [? _]%app_eq_nil]. done. }
    clear IHrest. apply Forall_app in Hweeks as [_ Hlw].
    apply Forall_inv in Hlw.
    rewrite concat_app in Hcat. simpl in Hcat. rewrite app_nil_r in Hcat.
    exists w0. split; [by rewrite last_snoc |].
    assert (length (concat rest) + 7 = length pre + length mid + length post)%nat
      as Hlen.
    { apply (f_equal length) in Hcat. rewrite !length_app in Hcat. lia. }
    assert (length mid ≠ 0)%nat as Hmid' by (by destruct mid).
    assert (w0 = drop (length (concat rest)) (pre ++ mid ++ post)) as ->.
    { rewrite <- Hcat. by rewrite drop_app_length. }
    split.
    + rewrite drop_drop.
      replace (length (concat rest) + (7 - length post))%nat
        with (length (pre ++ mid)) by (rewrite length_app; lia).
      by rewrite app_assoc, drop_app_length.
    + rewrite lookup_drop.
      replace (length (concat rest) + (6 - length post))%nat
        with (length pre + pred (length mid))%nat by lia.
      rewrite lookup_app_r by lia.
      replace (length pre + pred (length mid) - length pre)%nat
        with (pred (length mid)) by lia.
      rewrite lookup_app_l by lia. by rewrite last_lookup.
Qed.

Lemma concat_weeks_length {A} (grid : list (list A)) :
  Forall (λ w, length w = 7%nat) grid →
  length (concat grid) = (7 * length grid)%nat.
Proof.
  induction 1 as [| w grid Hw _ IH]; [done |].
  simpl. rewrite length_app, IH, Hw. lia.
Qed.

Lemma make_cell_spec_cell strftime hd selected_habit info y m d :
  hd !! selected_habit = Some info →
  make_cell strftime hd selected_habit d (datetime.mkdate y m d)
  = spec_cell strftime info y m d.
Proof.
  intros H. unfold make_cell, spec_cell.
  by rewrite (day_status_history _ _ _ _ H).
Qed.

(** C6.  For every habit of the store and every month of the years 1 to
    9999 whose following month [datetime.date] can still represent (all
    but December 9999), the calendar block returns a grid of weeks of
    exactly seven cells, so the number of cells is a multiple of 7.  Read
    in order, the cells are w empty cells, where w is the Monday = 0
    weekday of day 1, then one cell for each day 1 .. n of the month that
    carries the day number and [history.get(date_string, False)], then
    fewer than seven empty cells.  The first week starts with exactly the
    w empty cells followed by day 1, and the last week ends with day n
    followed by the trailing empty cells.  This holds whatever string
    [strftime] gives for a date. *)
Theorem calendar_grid_shape strftime hd selected_habit info y m :
  hd !! selected_habit = Some info →
  1 ≤ y ≤ 9999 →
  1 ≤ m ≤ 12 →
  y < 9999 ∨ m < 12 →
  ∃ grid first_day (w trailing : nat),
    calendar_grid strftime hd selected_habit y m = inr grid
    ∧ datetime.new y m 1 = inr first_day
    ∧ Z.of_nat w = datetime.weekday first_day
    ∧ (w ≤ 6)%nat
    ∧ (trailing ≤ 6)%nat
    ∧ Forall (λ week, length week = 7%nat) grid
    ∧ length (concat grid) = (7 * length grid)%nat
    ∧ concat grid
      = replicate w None
        ++ (spec_cell strftime info y m <$> seqZ 1 (datetime.days_in_month y m))
        ++ replicate trailing None
    ∧ (∃ first_week,
         head grid = Some first_week
         ∧ take w first_week = replicate w None
         ∧ first_week !! w = Some (spec_cell strftime info y m 1))
    ∧ (∃ last_week,
         last grid = Some last_week
         ∧ drop (7 - trailing) last_week = replicate trailing None
         ∧ last_week !! (6 - trailing)%nat
           = Some (spec_cell strftime info y m (datetime.days_in_month y m))).
Proof.
  intros Hinfo Hy Hm Hnext.
  pose proof (days_in_month_bounds y m Hm) as Hdim.
  set (n := datetime.days_in_month y m) in *.
  set (first_day := datetime.mkdate y m 1).
  set (w := Z.to_nat (datetime.weekday first_day)).
  assert (0 ≤ datetime.weekday first_day < 7) as Hwd
    by (apply Z.mod_pos_bound; done).
  assert (w ≤ 6)%nat as Hw by (unfold w; lia).
  assert (datetime.new y m 1 = inr first_day) as Hfirst
    by (apply new_valid; fold n; lia).
  destruct (fill_days_spec strftime hd selected_habit y m (seqZ 1 n) []
              (leading_cells (datetime.weekday first_day)))
    as (cal & week & Hfill & Hcal & Hweek & Hcat).
  { intros d [Hd1 Hd2]%elem_of_seqZ. apply new_valid; fold n; lia. }
  { constructor. }
  { rewrite leading_cells_replicate, length_replicate. fold w. lia. }
  cbv zeta in Hcat. simpl in Hcat.
  rewrite leading_cells_replicate in Hcat. fold w in Hcat.
  assert ((λ d, make_cell strftime hd selected_habit d (datetime.mkdate y m d))
            <$> seqZ 1 n = spec_cell strftime info y m <$> seqZ 1 n) as Hcells.
  { apply list_fmap_ext. intros _ d _.
    by apply make_cell_spec_cell. }
  rewrite Hcells in Hcat. clear Hcells.
  set (cells := spec_cell strftime info y m <$> seqZ 1 n) in *.
  assert (length cells = Z.to_nat n) as Hlen
    by (unfold cells; by rewrite length_fmap, length_seqZ).
  assert (cells ≠ []) as Hne.
  { intros E. rewrite E in Hlen. simpl in Hlen. lia. }
  assert (head cells = Some (spec_cell strftime info y m 1)) as Hhead.
  { unfold cells. rewrite head_lookup, list_lookup_fmap.
    rewrite (lookup_seqZ_lt 1 n 0) by lia. done. }
  assert (last cells = Some (spec_cell strftime info y m n)) as Hlast.
  { rewrite last_lookup, Hlen. unfold cells. rewrite list_lookup_fmap.
    rewrite (lookup_seqZ_lt 1 n (pred (Z.to_nat n))) by lia.
    simpl. do 2 f_equal. lia. }
  set (trailing := match week with [] => 0%nat | _ => (7 - length week)%nat end).
  set (grid := match week with
               | [] => cal
               | _ => cal ++ [week ++ replicate (7 - length week) None]
               end).
  assert (calendar_grid strftime hd selected_habit y m = inr grid) as Hgrid.
  { unfold calendar_grid. rewrite Hfirst, num_days_spec by done.
    fold n. rewrite Hfill. unfold grid. destruct week as [| c week]; [done |].
    by rewrite pad_week_replicate by lia. }
  assert (trailing ≤ 6)%nat as Htr.
  { unfold trailing. destruct week; simpl; lia. }
  assert (Forall (λ week, length week = 7%nat) grid) as Hweeks.
  { unfold grid. destruct week as [| c week]; [done |].
    apply Forall_app. split; [done |]. apply Forall_singleton.
    rewrite length_app, length_replicate. simpl in *. lia. }
  assert (concat grid = replicate w None ++ cells ++ replicate trailing None)
    as Hconcat.
  { unfold grid, trailing. destruct week as [| c week].
    - rewrite app_nil_r in Hcat. by rewrite Hcat, !app_nil_r.
    - rewrite concat_app. cbn [concat]. rewrite app_nil_r.
      rewrite (app_assoc (concat cal)), Hcat.
      by rewrite <- !app_assoc. }
  exists grid, first_day, w, trailing.
  split; [done |]. split; [done |]. split; [unfold w; lia |].
  split; [done |]. split; [done |]. split; [done |].
  split; [by apply concat_weeks_length |]. split; [done |].
  destruct (padded_grid_weeks grid (replicate w None) cells
              (replicate trailing None) Hweeks Hconcat Hne)
    as [Hfw Hlw]; [rewrite length_replicate; lia .. |].
  rewrite !length_replicate in Hfw, Hlw.
  rewrite Hhead in Hfw. rewrite Hlast in Hlw. done.
Qed.

Lemma calendar_grid_shape_witness :
  ∃ grid first_day (w trailing : nat),
    calendar_grid datetime.strftime_ymd (habit_data run_store_checked) "run" 2024 5 = inr grid
    ∧ datetime.new 2024 5 1 = inr first_day
    ∧ Z.of_nat w = datetime.weekday first_day
    ∧ (w ≤ 6)%nat
    ∧ (trailing ≤ 6)%nat
    ∧ Forall (λ week, length week = 7%nat) grid
    ∧ length (concat grid) = (7 * length grid)%nat
    ∧ concat grid
      = replicate w None
        ++ (spec_cell datetime.strftime_ymd run_info_checked 2024 5
              <$> seqZ 1 (datetime.days_in_month 2024 5))
        ++ replicate trailing None
    ∧ (∃ first_week,
         head grid = Some first_week
         ∧ take w first_week = replicate w None
         ∧ first_week !! w = Some (spec_cell datetime.strftime_ymd run_info_checked 2024 5 1))
    ∧ (∃ last_week,
         last grid = Some last_week
         ∧ drop (7 - trailing) last_week = replicate trailing None
         ∧ last_week !! (6 - trailing)%nat
           = Some (spec_cell datetime.strftime_ymd run_info_checked 2024 5
                     (datetime.days_in_month 2024 5))).
Proof.
  apply (calendar_grid_shape datetime.strftime_ymd (habit_data run_store_checked) "run"
           run_info_checked 2024 5).
  - reflexivity.
  - lia.
  - lia.
  - lia.
Defined.

(** May 2024 begins on a Wednesday: two empty cells, then the days 1 to 5
    with the recorded statuses of the 1st and the 2nd; five weeks, the
    last one ending with Friday the 31st and two empty cells. *)
Example calendar_may_2024 :
  datetime.weekday (datetime.mkdate 2024 5 1) = 2
  ∧ ∃ grid first_week last_week,
      calendar_grid datetime.strftime_ymd (habit_data run_store_checked) "run" 2024 5 = inr grid
      ∧ length grid = 5%nat
      ∧ head grid = Some first_week
      ∧ (λ c : cell, day <$> c) <$> first_week
        = [None; None; Some 1; Some 2; Some 3; Some 4; Some 5]
      ∧ (λ c : cell, completed <$> c) <$> first_week
        = [None; None; Some true; Some false; Some false; Some false;
           Some false]
      ∧ last grid = Some last_week
      ∧ (λ c : cell, day <$> c) <$> last_week
        = [Some 27; Some 28; Some 29; Some 30; Some 31; None; None].
Proof.
  split; [reflexivity |].
  eexists _, _, _. split; [vm_compute; reflexivity |].
  repeat split.
Qed.

(** In December 9999 the first day of the next month is outside the
    range of [datetime.date]: the block raises before a grid is built. *)
Example calendar_december_9999 strftime hd selected_habit :
  calendar_grid strftime hd selected_habit 9999 12 = inl ValueError.
Proof. reflexivity. Qed.

(** ** Completion counts *)

Lemma history_completed_le_total h :
  (history_completed h ≤ history_total h)%nat.
Proof.
  unfold history_completed, history_total.
  rewrite <- length_map_to_list, <- (length_fmap snd).
  apply length_filter.
Qed.

Example history_counts :
  let h : gmap string bool :=
    <["2024-05-01" := true]>
      (<["2024-05-02" := false]> {["2024-05-03" := true]}) in
  history_completed h = 2%nat ∧ history_total h = 3%nat
  ∧ history_total (∅ : gmap string bool) = 0%nat.
Proof. vm_compute. done. Qed.

Lemma history_completed_insert_fresh (h : gmap string bool) (d : string) (b : bool) :
  h !! d = None →
  history_completed (<[d := b]> h)
  = ((if b then 1 else 0) + history_completed h)%nat.
Proof.
  intros Hd. unfold history_completed.
  rewrite (map_to_list_insert h d b Hd). simpl.
  destruct b; [by rewrite filter_cons_True | by rewrite filter_cons_False].
Qed.

(** ** Completion rates *)

(** *** The rounding functions of [SpecFloat], in integers *)

(** [Zdigits2] is the number of binary digits. *)

Lemma Zdigits2_bounds m :
  0 < m → 2 ^ (Zdigits2 m - 1) ≤ m < 2 ^ Zdigits2 m.
Proof.
  destruct m as [| p | p]; [lia | | lia]. intros _. simpl.
  induction p as [p IH | p IH |]; simpl digits2_pos.
  - rewrite Pos2Z.inj_succ. replace (Z.succ (Z.pos (digits2_pos p)) - 1)
      with (Z.succ (Z.pos (digits2_pos p) - 1)) by lia.
    rewrite !Z.pow_succ_r by lia. lia.
  - rewrite Pos2Z.inj_succ. replace (Z.succ (Z.pos (digits2_pos p)) - 1)
      with (Z.succ (Z.pos (digits2_pos p) - 1)) by lia.
    rewrite !Z.pow_succ_r by lia. lia.
  - simpl. lia.
Qed.

Lemma Zdigits2_nonneg m : 0 ≤ Zdigits2 m.
Proof. destruct m; simpl; lia. Qed.

Lemma Zdigits2_le m n : 0 ≤ m < 2 ^ n → 0 ≤ n → Zdigits2 m ≤ n.
Proof.
  intros [Hm Hlt] Hn. destruct (Z.eq_dec m 0) as [-> | Hne]; [done |].
  pose proof (Zdigits2_bounds m ltac:(lia)) as [Hlo _].
  pose proof (Zdigits2_nonneg m).
  destruct (Z.le_gt_cases (Zdigits2 m) n) as [? | Hgt]; [done |].
  pose proof (Z.pow_le_mono_r 2 n (Zdigits2 m - 1) ltac:(lia) ltac:(lia)).
  lia.
Qed.

(** One shift to the right halves the mantissa and records the bit and
    the rest that fall off. *)

Lemma shr_1_nonneg m r s :
  0 ≤ m →
  shr_1 {| shr_m := m; shr_r := r; shr_s := s |}
  = {| shr_m := m / 2; shr_r := Z.odd m; shr_s := r || s |}.
Proof.
  intros Hm. destruct m as [| p | p]; [done | | lia].
  destruct p as [p | p |]; simpl shr_1; f_equal.
  - rewrite Pos2Z.inj_xI. apply (Z.div_unique _ _ _ 1); lia.
  - rewrite Pos2Z.inj_xO. apply (Z.div_unique _ _ _ 0); lia.
Qed.

Lemma loc_of_shr_record_cases m r s N D :
  0 ≤ N → 0 < D →
  loc_of_shr_record {| shr_m := m; shr_r := r; shr_s := s |} = loc_of N D →
  (r || s = negb (N mod D =? 0)).
Proof.
  intros HN HD. unfold loc_of.
  destruct (Z.eqb_spec (N mod D) 0); destruct r, s; simpl; done.
Qed.

(** Shifting the record of [N / D] gives the record of [N / (2 * D)]:
    the position of the rest is tracked exactly. *)

Lemma shr_1_encodes mrs N D :
  0 ≤ N → 0 < D → encodes mrs N D → encodes (shr_1 mrs) N (2 * D).
Proof.
  intros HN HD [Hm Hl]. destruct mrs as [m r s]. simpl in Hm.
  assert (0 ≤ m) as Hm0 by (subst m; apply Z.div_pos; lia).
  rewrite shr_1_nonneg by done.
  pose proof (loc_of_shr_record_cases m r s N D HN HD Hl) as Hrs.
  split; simpl.
  - subst m. rewrite Z.div_div by lia. f_equal. lia.
  - rewrite Hrs. unfold loc_of.
    rewrite (Z.mul_comm 2 D), Z.rem_mul_r by lia. rewrite <- Hm.
    pose proof (Z.mod_pos_bound N D HD) as Hrho.
    rewrite Zodd_mod.
    pose proof (Z.mod_pos_bound m 2 ltac:(lia)) as Hb.
    destruct (Z.eqb_spec (m mod 2) 1) as [Hodd | Heven].
    + rewrite Hodd.
      destruct (Z.eqb_spec (N mod D) 0) as [H0 | H0]; simpl.
      * rewrite H0. replace (0 + D * 1 =? 0) with false
          by (symmetry; apply Z.eqb_neq; lia).
        f_equal. symmetry. apply Z.compare_eq_iff. lia.
      * replace (N mod D + D * 1 =? 0) with false
          by (symmetry; apply Z.eqb_neq; lia).
        f_equal. symmetry. apply Z.compare_gt_iff. lia.
    + assert (m mod 2 = 0) as -> by lia.
      destruct (Z.eqb_spec (N mod D) 0) as [H0 | H0]; simpl.
      * rewrite H0, Z.mul_0_r. done.
      * replace (N mod D + D * 0 =? 0) with false
          by (symmetry; apply Z.eqb_neq; lia).
        f_equal. symmetry. apply Z.compare_lt_iff. lia.
Qed.

Lemma iter_shr_1_encodes (n : nat) mrs N D :
  0 ≤ N → 0 < D → encodes mrs N D →
  encodes (Nat.iter n shr_1 mrs) N (2 ^ Z.of_nat n * D).
Proof.
  intros HN HD H. induction n as [| n IH].
  - simpl. by rewrite Z.mul_1_l.
  - rewrite Nat2Z.inj_succ, Z.pow_succ_r by lia. simpl.
    replace (2 * 2 ^ Z.of_nat n * D) with (2 * (2 ^ Z.of_nat n * D)) by lia.
    apply shr_1_encodes; [done | | done].
    pose proof (Z.pow_pos_nonneg 2 (Z.of_nat n)). lia.
Qed.

Lemma iter_pos_nat {A} (f : A → A) p x :
  iter_pos f p x = Nat.iter (Pos.to_nat p) f x.
Proof.
  revert x. induction p as [p IH | p IH |]; intros x; cbn [iter_pos].
  - rewrite !IH, Pos2Nat.inj_xI.
    rewrite <- Nat.iter_succ_r, <- Nat.iter_add. f_equal. lia.
  - rewrite !IH, Pos2Nat.inj_xO. rewrite <- Nat.iter_add. f_equal. lia.
  - done.
Qed.

Lemma shr_encodes mrs e n N D :
  0 ≤ N → 0 < D → encodes mrs N D →
  encodes (shr mrs e n).1 N (2 ^ Z.max 0 n * D)
  ∧ (shr mrs e n).2 = e + Z.max 0 n.
Proof.
  intros HN HD H. destruct n as [| p | p]; cbn [shr fst snd].
  - change (2 ^ Z.max 0 0) with 1. rewrite Z.mul_1_l. split; [done | lia].
  - rewrite iter_pos_nat. split; [| lia].
    pose proof (iter_shr_1_encodes (Pos.to_nat p) mrs N D HN HD H) as Hi.
    rewrite positive_nat_Z in Hi.
    by replace (Z.max 0 (Z.pos p)) with (Z.pos p) by lia.
  - replace (Z.max 0 (Z.neg p)) with 0 by lia.
    change (2 ^ 0) with 1. rewrite Z.mul_1_l. split; [done | lia].
Qed.

Lemma shr_record_of_loc_encodes N D :
  encodes (shr_record_of_loc (N / D) (loc_of N D)) N D.
Proof.
  unfold encodes. destruct (loc_of N D) as [| []]; done.
Qed.

(** Rounding to nearest, ties to even: an integer next to [N / D], at
    most half a unit away, and below every integer bound of [N / D]. *)

Lemma round_nearest_even_spec N D :
  0 ≤ N → 0 < D →
  N / D ≤ round_nearest_even (N / D) (loc_of N D) ≤ N / D + 1
  ∧ 2 * Z.abs (round_nearest_even (N / D) (loc_of N D) * D - N) ≤ D
  ∧ ∀ k, N ≤ k * D → round_nearest_even (N / D) (loc_of N D) ≤ k.
Proof.
  intros HN HD.
  pose proof (Z.div_mod N D ltac:(lia)) as Hdm.
  pose proof (Z.mod_pos_bound N D HD) as Hrho.
  set (q := N / D) in *. set (rho := N mod D) in *.
  assert (∀ k, N ≤ k * D → q ≤ k) as Hq.
  { intros k Hk. apply (Z.mul_le_mono_pos_r _ _ D); lia. }
  assert (∀ k, N ≤ k * D → rho ≠ 0 → q + 1 ≤ k) as Hq1.
  { intros k Hk Hne. apply Z.lt_succ_r, Z.lt_succ_r.
    assert (q * D < k * D) as Hlt by lia.
    apply Z.mul_lt_mono_pos_r in Hlt; lia. }
  unfold loc_of. fold rho.
  destruct (Z.eqb_spec rho 0) as [H0 | H0]; simpl.
  { split; [lia |]. split; [lia | done]. }
  destruct (Z.compare_spec (2 * rho) D) as [He | Hl | Hg]; simpl.
  - destruct (Z.even q).
    + split; [lia |]. split; [lia |]. intros k Hk. specialize (Hq k Hk). lia.
    + split; [lia |]. split; [lia |]. intros k Hk. by apply Hq1.
  - split; [lia |]. split; [lia |]. intros k Hk. specialize (Hq k Hk). lia.
  - split; [lia |]. split; [lia |]. intros k Hk. by apply Hq1.
Qed.

(** *** binary64: precision 53, exponents from -1074 *)

Lemma fexp64_eq e : fexp 53 1024 e = Z.max (e - 53) (-1074).
Proof. reflexivity. Qed.

Lemma shr_nonpos mrs e n : n ≤ 0 → shr mrs e n = (mrs, e).
Proof. destruct n; [done | lia | done]. Qed.

Lemma round_exp_ge mx ex :
  ex ≤ round_exp mx ex ∧ -1074 ≤ round_exp mx ex
  ∧ Zdigits2 mx + ex - 53 ≤ round_exp mx ex.
Proof. unfold round_exp. rewrite fexp64_eq. lia. Qed.

Lemma round_den_pos mx ex D : 0 < D → 0 < round_den mx ex D.
Proof.
  intros HD. unfold round_den.
  pose proof (round_exp_ge mx ex) as [? _].
  pose proof (Z.pow_pos_nonneg 2 (round_exp mx ex - ex)). lia.
Qed.

Lemma round_man_bounds ex N D :
  0 ≤ N → 0 < D →
  0 ≤ round_man (N / D) ex N D ≤ 2 ^ 53.
Proof.
  intros HN HD. set (mx := N / D).
  pose proof (round_den_pos mx ex D HD) as HD1.
  pose proof (round_nearest_even_spec N (round_den mx ex D) HN HD1)
    as ([Hlo Hhi] & _ & _).
  fold (round_man mx ex N D) in Hlo, Hhi.
  assert (0 ≤ N / round_den mx ex D) by (apply Z.div_pos; lia).
  split; [lia |].
  assert (N / round_den mx ex D < 2 ^ 53); [| lia].
  unfold round_den. rewrite Z.mul_comm, <- Z.div_div by
    (pose proof (round_exp_ge mx ex) as [? _];
     pose proof (Z.pow_pos_nonneg 2 (round_exp mx ex - ex)); lia).
  fold mx. pose proof (round_exp_ge mx ex) as (Hge & _ & Hdig).
  set (k := round_exp mx ex - ex) in *.
  assert (0 ≤ mx) by (apply Z.div_pos; lia).
  pose proof (Z.pow_pos_nonneg 2 k ltac:(lia) ltac:(lia)) as Hk.
  apply Z.div_lt_upper_bound; [done |].
  destruct (Z.eq_dec mx 0) as [-> | Hne]; [lia |].
  pose proof (Zdigits2_bounds mx ltac:(lia)) as [_ Hlt].
  pose proof (Zdigits2_nonneg mx).
  rewrite <- Z.pow_add_r by lia.
  pose proof (Z.pow_le_mono_r 2 (Zdigits2 mx) (k + 53) ltac:(lia) ltac:(lia)).
  lia.
Qed.

(** [binary_round_aux] rounds once, at the exponent [round_exp]. *)

Lemma binary_round_aux_spec ex N D :
  0 ≤ N → 0 < D →
  binary_round_aux 53 1024 false (N / D) ex (loc_of N D)
  = pack64 (round_man (N / D) ex N D) (round_exp (N / D) ex).
Proof.
  intros HN HD. set (mx := N / D).
  pose proof (round_man_bounds ex N D HN HD) as Hm'. fold mx in Hm'.
  pose proof (round_exp_ge mx ex) as (Hge & Hemin & Hdig).
  unfold binary_round_aux, shr_fexp.
  pose proof (shr_encodes (shr_record_of_loc mx (loc_of N D)) ex
                (fexp 53 1024 (Zdigits2 mx + ex) - ex) N D HN HD
                (shr_record_of_loc_encodes N D)) as [[Hm Hl] He].
  destruct (shr (shr_record_of_loc mx (loc_of N D)) ex
              (fexp 53 1024 (Zdigits2 mx + ex) - ex)) as [mrs' e'].
  simpl in Hm, Hl, He.
  assert (e' = round_exp mx ex) as -> by (unfold round_exp; lia).
  assert (2 ^ Z.max 0 (fexp 53 1024 (Zdigits2 mx + ex) - ex) * D
          = round_den mx ex D) as HD1.
  { unfold round_den, round_exp. do 2 f_equal. lia. }
  rewrite HD1 in Hm, Hl. rewrite Hm, Hl.
  fold (round_man mx ex N D).
  set (m' := round_man mx ex N D) in *. set (e1 := round_exp mx ex) in *.
  unfold pack64.
  destruct (Z.eqb_spec m' 0) as [-> | Hne0].
  { rewrite shr_nonpos by (simpl Zdigits2; rewrite fexp64_eq; lia). done. }
  destruct (Z.eqb_spec m' (2 ^ 53)) as [-> | Hne53].
  { replace (fexp 53 1024 (Zdigits2 (2 ^ 53) + e1) - e1) with 1
      by (change (Zdigits2 (2 ^ 53)) with 54; rewrite fexp64_eq; lia).
    done. }
  rewrite shr_nonpos.
  - simpl. destruct m' as [| p | p]; [done | | lia]. done.
  - rewrite fexp64_eq.
    pose proof (Zdigits2_le m' 53 ltac:(lia) ltac:(lia)). lia.
Qed.

(** The same with the rounding error and the bound on the mantissa, for
    results that do not overflow. *)

Lemma binary_round_aux_mk64 ex N D :
  0 ≤ N → 0 < D →
  (∀ m, 0 < m → (∀ K, N ≤ K * 2 ^ (round_exp (N / D) ex - ex) * D → m ≤ K) →
        round_exp (N / D) ex + 1 ≤ 971 ∨ (m < 2 ^ 53 ∧ round_exp (N / D) ex ≤ 971)) →
  ∃ m e,
    binary_round_aux 53 1024 false (N / D) ex (loc_of N D) = mk64 m e
    ∧ 0 ≤ m
    ∧ (e = round_exp (N / D) ex ∨ (e = round_exp (N / D) ex + 1 ∧ m = 2 ^ 52))
    ∧ 2 * Z.abs (m * 2 ^ (e - ex) * D - N) ≤ 2 ^ (e - ex) * D
    ∧ (∀ K, N ≤ K * 2 ^ (e - ex) * D → m ≤ K).
Proof.
  intros HN HD Hov. rewrite binary_round_aux_spec by done.
  pose proof (round_man_bounds ex N D HN HD) as Hm.
  pose proof (round_exp_ge (N / D) ex) as (Hge & _ & _).
  pose proof (round_den_pos (N / D) ex D HD) as HD1.
  pose proof (round_nearest_even_spec N (round_den (N / D) ex D) HN HD1)
    as (_ & Herr & Hup).
  fold (round_man (N / D) ex N D) in Herr, Hup.
  unfold round_den in Herr, Hup.
  set (m1 := round_man (N / D) ex N D) in *.
  set (e1 := round_exp (N / D) ex) in *.
  pose proof (Z.pow_pos_nonneg 2 (e1 - ex) ltac:(lia) ltac:(lia)) as Hk.
  unfold pack64.
  destruct (Z.eqb_spec m1 0) as [E0 | Hne0].
  { exists 0, e1. rewrite E0 in Herr. split_and!; try done; [by left |].
    intros K HK. rewrite <- E0. apply Hup. lia. }
  assert (∀ K, N ≤ K * 2 ^ (e1 - ex) * D → m1 ≤ K) as Hup'.
  { intros K HK. apply Hup. lia. }
  destruct (Z.eqb_spec m1 (2 ^ 53)) as [E53 | Hne53].
  - destruct (Hov m1 ltac:(lia) Hup') as [Hle | [Hlt _]]; [| lia].
    destruct (Z.leb_spec (e1 + 1) 971) as [_ | ?]; [| lia].
    exists (2 ^ 52), (e1 + 1).
    replace (e1 + 1 - ex) with (Z.succ (e1 - ex)) by lia.
    rewrite Z.pow_succ_r by lia.
    rewrite E53 in Herr. change (2 ^ 53) with (2 * 2 ^ 52) in Herr.
    split_and!; [done | done | by right | lia |].
    intros K HK. assert (m1 ≤ 2 * K); [apply Hup; lia |].
    rewrite E53 in H. change (2 ^ 53) with (2 * 2 ^ 52) in H. lia.
  - destruct (Hov m1 ltac:(lia) Hup') as [Hle | [_ Hle]];
      (destruct (Z.leb_spec e1 971) as [_ | ?]; [| lia]).
    all: exists m1, e1; split_and!; try done; try lia; try (by left).
    all: try (destruct m1; done || lia).
Qed.

(** *** Division and multiplication *)

Lemma new_location_loc_of N D :
  0 < D → new_location D (N mod D) = loc_of N D.
Proof.
  intros HD. pose proof (Z.mod_pos_bound N D HD) as Hr.
  unfold new_location, new_location_even, new_location_odd, loc_of.
  destruct (Z.even D) eqn:Ev; [done |].
  destruct (N mod D =? 0); [done |]. f_equal.
  assert (Z.odd D = true) as Hodd by (rewrite <- Z.negb_even, Ev; done).
  apply Z.odd_spec in Hodd as [k ->].
  destruct (Z.compare_spec (2 * (N mod (2 * k + 1)) + 1) (2 * k + 1));
    symmetry; apply Z.compare_lt_iff || apply Z.compare_gt_iff; lia.
Qed.

Lemma Zdigits2_mono a b : 0 < a ≤ b → Zdigits2 a ≤ Zdigits2 b.
Proof.
  intros [Ha Hab].
  pose proof (Zdigits2_bounds a Ha) as [Hlo _].
  pose proof (Zdigits2_bounds b ltac:(lia)) as [_ Hhi].
  pose proof (Zdigits2_nonneg b).
  assert (Zdigits2 a - 1 < Zdigits2 b); [| lia].
  apply (Z.pow_lt_mono_r_iff 2); lia.
Qed.

Lemma SFdiv_core_binary_spec (c t : positive) :
  Zpos c ≤ Zpos t →
  let e' := fexp 53 1024 (Zdigits2 (Zpos c) - Zdigits2 (Zpos t)) in
  e' ≤ -53
  ∧ SFdiv_core_binary 53 1024 (Zpos c) 0 (Zpos t) 0
    = (Zpos c * 2 ^ (- e') / Zpos t, e', loc_of (Zpos c * 2 ^ (- e')) (Zpos t)).
Proof.
  intros Hct e'.
  pose proof (Zdigits2_mono (Zpos c) (Zpos t) ltac:(lia)) as Hd.
  assert (e' ≤ -53) as He' by (unfold e'; rewrite fexp64_eq; lia).
  split; [done |].
  unfold SFdiv_core_binary. rewrite !Z.add_0_r, !Z.sub_0_r. fold e'.
  rewrite Z.min_l by lia. rewrite Z.sub_0_l.
  destruct (- e') as [| s | s] eqn:Es; [lia | | lia].
  rewrite Z.shiftl_mul_pow2 by lia.
  rewrite <- (new_location_loc_of (Zpos c * 2 ^ Zpos s) (Zpos t)) by lia.
  unfold Z.div, Z.modulo.
  destruct (Z.div_eucl (Zpos c * 2 ^ Zpos s) (Zpos t)) as [q r]. done.
Qed.

(** [c / t] for ints [0 < c ≤ t]: a float [m * 2^e] of at most 1, within
    half a unit of [2^e] of the quotient. *)

Lemma SFdiv_exact_int (c t : positive) :
  Zpos c ≤ Zpos t →
  ∃ m e,
    SFdiv 53 1024 (exact_int (Zpos c)) (exact_int (Zpos t)) = mk64 m e
    ∧ 0 ≤ m ≤ 2 ^ (- e)
    ∧ e ≤ -52
    ∧ 2 * Z.abs (m * Zpos t - Zpos c * 2 ^ (- e)) ≤ Zpos t.
Proof.
  intros Hct.
  destruct (SFdiv_core_binary_spec c t Hct) as [He' Hcore].
  unfold SFdiv, exact_int. rewrite Hcore. cbn [xorb].
  set (e' := fexp 53 1024 (Zdigits2 (Zpos c) - Zdigits2 (Zpos t))) in *.
  set (N := Zpos c * 2 ^ (- e')).
  pose proof (Z.pow_pos_nonneg 2 (- e') ltac:(lia) ltac:(lia)) as Hs.
  assert (0 ≤ N) as HN by (unfold N; lia).
  assert (N ≤ 2 ^ (- e') * Zpos t) as HNt by (unfold N; nia).
  assert (round_exp (N / Zpos t) e' ≤ -52) as He1.
  { assert (0 ≤ N / Zpos t) by (apply Z.div_pos; lia).
    assert (N / Zpos t ≤ 2 ^ (- e')).
    { apply Z.div_le_upper_bound; lia. }
    pose proof (Zdigits2_le (N / Zpos t) (- e' + 1)) as Hdig.
    rewrite Z.pow_add_r, Z.pow_1_r in Hdig by lia.
    unfold round_exp. rewrite fexp64_eq. lia. }
  destruct (binary_round_aux_mk64 e' N (Zpos t) HN ltac:(lia))
    as (m & e & -> & Hm & He & Herr & Hup).
  { intros. left. lia. }
  pose proof (round_exp_ge (N / Zpos t) e') as (Hge & _ & _).
  assert (e ≤ -52) as Hle.
  { destruct He as [-> | [-> ->]]; [done |].
    destruct (Z.eq_dec (round_exp (N / Zpos t) e') (-52)) as [E | ?]; [| lia].
    exfalso. rewrite E in Hup.
    assert (2 ^ 52 ≤ 2 ^ 51); [| lia].
    apply Hup. rewrite <- Z.pow_add_r by lia.
    replace (51 + (-52 + 1 - e')) with (- e') by lia. lia. }
  assert (e' ≤ e) by lia.
  assert (2 ^ (- e') = 2 ^ (- e) * 2 ^ (e - e')) as Hsplit.
  { rewrite <- Z.pow_add_r by lia. f_equal. lia. }
  pose proof (Z.pow_pos_nonneg 2 (e - e') ltac:(lia) ltac:(lia)) as Hk.
  exists m, e. split_and!; [done | done | | done |].
  - apply Hup. lia.
  - unfold N in Herr. rewrite Hsplit in Herr.
    replace (m * 2 ^ (e - e') * Zpos t - Zpos c * (2 ^ (- e) * 2 ^ (e - e')))
      with ((m * Zpos t - Zpos c * 2 ^ (- e)) * 2 ^ (e - e')) in Herr by ring.
    rewrite Z.abs_mul, (Z.abs_eq (2 ^ (e - e'))) in Herr by lia.
    nia.
Qed.

Lemma float_of_int_100 :
  float_of_int 100 = inr (S754_finite false 7036874417766400 (-46)).
Proof. reflexivity. Qed.

(** Such a float times [100.0]: a float of at most 100, within half a
    unit of its last place of the product. *)

Lemma SFmul_100 m e :
  0 ≤ m ≤ 2 ^ (- e) → e ≤ -52 →
  ∃ m2 e2,
    SFmul 53 1024 (mk64 m e) (S754_finite false 7036874417766400 (-46))
    = mk64 m2 e2
    ∧ 0 ≤ m2 ≤ 100 * 2 ^ (- e2)
    ∧ e2 ≤ -46
    ∧ 2 * Z.abs (m2 * 2 ^ (- e) - 100 * m * 2 ^ (- e2)) ≤ 2 ^ (- e).
Proof.
  intros Hm He.
  destruct m as [| p | p]; [| | lia].
  { exists 0, (-46). split_and!; try done; lia. }
  unfold mk64 at 1, SFmul. cbn [xorb].
  set (N := Zpos (p * 7036874417766400)).
  assert (N = 100 * Zpos p * 2 ^ 46) as HN by (unfold N; lia).
  replace loc_Exact with (loc_of N 1)
    by (unfold loc_of; rewrite Z.mod_1_r; done).
  pose proof (Z.pow_pos_nonneg 2 (- e) ltac:(lia) ltac:(lia)) as Hs.
  assert (round_exp (N / 1) (e + -46) ≤ -46) as He1.
  { rewrite Z.div_1_r.
    pose proof (Zdigits2_le N (- e + 53)) as Hdig.
    rewrite Z.pow_add_r in Hdig by lia.
    unfold round_exp. rewrite fexp64_eq. lia. }
  destruct (binary_round_aux_mk64 (e + -46) N 1 ltac:(lia) ltac:(lia))
    as (m2 & e2 & Hbra & Hm2 & He2 & Herr & Hup).
  { intros. left. lia. }
  rewrite Z.div_1_r in Hbra at 1. rewrite Hbra.
  pose proof (round_exp_ge (N / 1) (e + -46)) as (Hge & _ & _).
  assert (2 ^ (- e) * 2 ^ 46 = 2 ^ (- e2) * 2 ^ (e2 - (e + -46))
          ∨ e2 < e + -46 ∨ 0 < e2) as Hsplit.
  { destruct (Z_le_gt_dec e2 0); [| lia].
    destruct (Z_lt_le_dec e2 (e + -46)); [lia |]. left.
    rewrite <- !Z.pow_add_r by lia. f_equal. lia. }
  assert (e2 ≤ -46) as Hle.
  { destruct He2 as [-> | [-> ->]]; [done |].
    destruct (Z.eq_dec (round_exp (N / 1) (e + -46)) (-46)) as [E | ?]; [| lia].
    exfalso. rewrite E in Hup, Hsplit.
    assert (2 ^ 52 ≤ 100 * 2 ^ 45); [| lia].
    apply Hup. destruct Hsplit as [Hsplit | ?]; [| lia].
    change (- (-46 + 1)) with 45 in Hsplit. lia. }
  destruct Hsplit as [Hsplit | ?]; [| lia].
  assert (e + -46 ≤ e2) by (destruct He2 as [-> | [-> ->]]; lia).
  pose proof (Z.pow_pos_nonneg 2 (e2 - (e + -46)) ltac:(lia) ltac:(lia)) as Hk.
  pose proof (Z.pow_pos_nonneg 2 (- e2) ltac:(lia) ltac:(lia)) as HP.
  exists m2, e2. split_and!; [done | done | | done |].
  - apply Hup. lia.
  - set (R := 2 ^ (e2 - (e + -46))) in *. set (P := 2 ^ (- e2)) in *.
    set (Q1 := 2 ^ (- e)) in *.
    assert ((m2 * Q1 - 100 * Z.pos p * P) * 2 ^ 46
            = (m2 * R * 1 - N) * P) as Heq.
    { rewrite HN. transitivity (m2 * (Q1 * 2 ^ 46) - 100 * Z.pos p * 2 ^ 46 * P);
        [ring | rewrite Hsplit; ring]. }
    assert (2 * Z.abs ((m2 * R * 1 - N) * P) ≤ R * 1 * P) as Herr'.
    { rewrite Z.abs_mul, (Z.abs_eq P) by lia. nia. }
    rewrite <- Heq, Z.abs_mul, (Z.abs_eq (2 ^ 46)) in Herr' by lia.
    replace (R * 1 * P) with (Q1 * 2 ^ 46) in Herr' by (rewrite Hsplit; ring).
    lia.
Qed.

(** *** The rate of a non-empty history *)

Lemma rate_of_counts_spec (c t : Z) :
  0 ≤ c ≤ t → 0 < t →
  ∃ m e,
    rate_of_counts c t = inr (Float (mk64 m e))
    ∧ 0 ≤ m ≤ 100 * 2 ^ (- e)
    ∧ e ≤ -46
    ∧ 2 ^ 45 * Z.abs (m * t - 100 * c * 2 ^ (- e)) < t * 2 ^ (- e)
    ∧ (c = 0 → m = 0)
    ∧ (c = t → m = 100 * 2 ^ (- e)).
Proof.
  intros Hc Ht. unfold rate_of_counts, int_truediv.
  destruct (Z.ltb_spec 0 t) as [_ | ?]; [| lia].
  destruct (Z.eqb_spec t 0) as [? | _]; [lia |].
  destruct t as [| t | t]; [lia | | lia].
  destruct c as [| c | c]; [| | lia].
  { exists 0, (-46). split_and!; first [done | lia]. }
  destruct (SFdiv_exact_int c t ltac:(lia)) as (m1 & e1 & -> & Hm1 & He1 & Herr1).
  destruct (SFmul_100 m1 e1 Hm1 He1) as (m2 & e2 & Hmul & Hm2 & He2 & Herr2).
  replace (finite_or_overflow (mk64 m1 e1)) with (inr (mk64 m1 e1) : exn + _)
    by (destruct m1; done).
  unfold float_mul_int. rewrite float_of_int_100, Hmul.
  exists m2, e2.
  set (P := 2 ^ (- e2)) in *. set (Q1 := 2 ^ (- e1)) in *.
  set (T := Z.pos t) in *. set (C := Z.pos c) in *.
  assert (2 ^ 46 ≤ P) as HP.
  { unfold P. apply Z.pow_le_mono_r; lia. }
  assert (2 ^ 52 ≤ Q1) as HQ.
  { unfold Q1. apply Z.pow_le_mono_r; lia. }
  assert (0 < T) by (unfold T; lia).
  split_and!; [done | lia | lia | done | | done |]; cycle 1.
  { intros HCT. rewrite HCT in Herr1.
    assert (m1 = Q1) as ->.
    { destruct (Z.eq_dec m1 Q1) as [? | Hne]; [done | exfalso].
      replace (m1 * T - T * Q1) with ((m1 - Q1) * T) in Herr1 by ring.
      rewrite Z.abs_mul, (Z.abs_eq T) in Herr1 by lia.
      assert (1 * T ≤ Z.abs (m1 - Q1) * T)
        by (apply Z.mul_le_mono_nonneg_r; lia).
      lia. }
    destruct (Z.eq_dec m2 (100 * P)) as [? | Hne]; [done | exfalso].
    replace (m2 * Q1 - 100 * Q1 * P) with ((m2 - 100 * P) * Q1) in Herr2 by ring.
    rewrite Z.abs_mul, (Z.abs_eq Q1) in Herr2 by lia.
    assert (1 * Q1 ≤ Z.abs (m2 - 100 * P) * Q1)
      by (apply Z.mul_le_mono_nonneg_r; lia).
    lia. }
  set (X := m2 * T - 100 * C * P).
  assert (Q1 * X = T * (m2 * Q1 - 100 * m1 * P) + 100 * P * (m1 * T - C * Q1))
    as HX by (unfold X; ring).
  assert (2 * Q1 * Z.abs X ≤ T * Q1 + 100 * P * T) as Hbound.
  { replace (2 * Q1 * Z.abs X) with (2 * Z.abs (Q1 * X))
      by (rewrite Z.abs_mul, (Z.abs_eq Q1) by lia; ring).
    rewrite HX.
    pose proof (Z.abs_triangle (T * (m2 * Q1 - 100 * m1 * P))
                  (100 * P * (m1 * T - C * Q1))) as Htri.
    rewrite (Z.abs_mul T), (Z.abs_mul (100 * P)), (Z.abs_eq T),
      (Z.abs_eq (100 * P)) in Htri by lia.
    assert (T * (2 * Z.abs (m2 * Q1 - 100 * m1 * P)) ≤ T * Q1)
      by (apply Z.mul_le_mono_nonneg_l; lia).
    assert (100 * P * (2 * Z.abs (m1 * T - C * Q1)) ≤ 100 * P * T)
      by (apply Z.mul_le_mono_nonneg_l; lia).
    lia. }
  assert (0 < T * Q1) by (apply Z.mul_pos_pos; lia).
  assert (0 < P * T) by (apply Z.mul_pos_pos; lia).
  assert (T * Q1 * 2 ^ 46 ≤ T * Q1 * P)
    by (apply Z.mul_le_mono_nonneg_l; lia).
  assert (2 ^ 52 * (P * T) ≤ Q1 * (P * T))
    by (apply Z.mul_le_mono_nonneg_r; lia).
  apply (Z.mul_lt_mono_pos_l (2 * Q1)); [lia |]. lia.
Qed.

Lemma float_value_mk64 m e :
  0 ≤ m → e ≤ 0 →
  ∃ q, float_value (mk64 m e) = Some q
       ∧ (q == inject_Z m / inject_Z (2 ^ (- e)))%Q.
Proof.
  intros Hm He. destruct m as [| p | p]; [| | lia].
  { exists 0%Q. split; [done |]. unfold Qdiv. ring. }
  eexists. split; [reflexivity |].
  replace e with (- (- e)) at 1 by lia.
  rewrite Qpower_opp, <- (Zpower_Qpower 2 (- e)) by lia. reflexivity.
Qed.

Lemma rate_value_bounds (m e c t : Z) (q : Q) :
  0 ≤ m ≤ 100 * 2 ^ (- e) → e ≤ 0 → 0 < t →
  2 ^ 45 * Z.abs (m * t - 100 * c * 2 ^ (- e)) < t * 2 ^ (- e) →
  (q == inject_Z m / inject_Z (2 ^ (- e)))%Q →
  (0 <= q <= 100)%Q
  ∧ (Qabs (q - 100 * inject_Z c / inject_Z t) < 2 ^ (-45))%Q.
Proof.
  intros Hm He Ht Herr Hq.
  pose proof (Z.pow_pos_nonneg 2 (- e) ltac:(lia) ltac:(lia)) as HP.
  set (P := 2 ^ (- e)) in *.
  assert (0 < inject_Z P)%Q as HPq by (rewrite (Zlt_Qlt 0 P) in HP; done).
  assert (0 < inject_Z t)%Q as Htq by (rewrite (Zlt_Qlt 0 t) in Ht; done).
  rewrite Hq. split; [split |].
  - apply Qle_shift_div_l; [done |]. rewrite Qmult_0_l.
    change (inject_Z 0 <= inject_Z m)%Q. rewrite <- Zle_Qle. lia.
  - apply Qle_shift_div_r; [done |]. change 100%Q with (inject_Z 100).
    rewrite <- inject_Z_mult, <- Zle_Qle. lia.
  - assert (inject_Z m / inject_Z P - 100 * inject_Z c / inject_Z t
            == inject_Z (m * t - 100 * c * P) / inject_Z (P * t))%Q as ->.
    { change 100%Q with (inject_Z 100).
      rewrite !inject_Z_mult. unfold Z.sub.
      rewrite inject_Z_plus, inject_Z_opp, !inject_Z_mult.
      field. split; intros E; rewrite E in *; by apply Qlt_irrefl in Htq || by apply Qlt_irrefl in HPq. }
    assert (0 < P * t) as HPt by (apply Z.mul_pos_pos; lia).
    assert (0 < inject_Z (P * t))%Q as HPtq
      by (rewrite (Zlt_Qlt 0 (P * t)) in HPt; done).
    change (2 ^ (-45))%Q with (/ inject_Z (2 ^ 45))%Q.
    apply Qabs_Qlt_condition. split.
    + apply Qlt_shift_div_l; [done |].
      assert (- / inject_Z (2 ^ 45) * inject_Z (P * t)
              == inject_Z (- (P * t)) / inject_Z (2 ^ 45))%Q as ->
        by (rewrite inject_Z_opp; field; done).
      apply Qlt_shift_div_r; [done |].
      rewrite <- inject_Z_mult, <- Zlt_Qlt. lia.
    + apply Qlt_shift_div_r; [done |].
      assert (/ inject_Z (2 ^ 45) * inject_Z (P * t)
              == inject_Z (P * t) / inject_Z (2 ^ 45))%Q as ->
        by (field; done).
      apply Qlt_shift_div_l; [done |].
      rewrite <- inject_Z_mult, <- Zlt_Qlt. lia.
Qed.

(** *** The completion rate of a habit *)

Lemma completion_rate_counts info :
  completion_rate info
  = rate_of_counts (Z.of_nat (history_completed (get_history info)))
      (Z.of_nat (history_total (get_history info))).
Proof.
  unfold completion_rate, get_history.
  destruct (history info) as [h |]; reflexivity.
Qed.

Lemma history_counts_three (d1 d2 d3 : string) :
  d1 ≠ d2 → d1 ≠ d3 → d2 ≠ d3 →
  history_completed (<[d1 := true]> (<[d2 := false]> {[d3 := true]})) = 2%nat
  ∧ history_total (<[d1 := true]> (<[d2 := false]> {[d3 := true]})) = 3%nat.
Proof.
  intros H12 H13 H23.
  assert (({[d3 := true]} : gmap string bool) !! d2 = None) as E2
    by (apply lookup_singleton_ne; congruence).
  assert ((<[d2 := false]> {[d3 := true]} : gmap string bool) !! d1 = None)
    as E1.
  { rewrite (lookup_insert_ne _ d2 d1) by congruence.
    apply lookup_singleton_ne. congruence. }
  split.
  - rewrite !history_completed_insert_fresh by done.
    rewrite <- insert_empty, history_completed_insert_fresh
      by apply lookup_empty.
    reflexivity.
  - unfold history_total.
    rewrite !map_size_insert_None by done. by rewrite map_size_singleton.
Qed.

(** C5 (corrected).  For every habit of the store, the completion rate
    the block computes is the int 0 when the history is empty or missing.
    Otherwise it is a float: the quotient completed / total rounded to
    binary64, times 100.0, rounded again.  That float lies in [0, 100],
    differs from the real number 100 * completed / total by less than
    2^-45, is the float zero when no date is completed and has the value
    100 when all are.  It is in general not equal to
    100 * completed / total: for a history with the values true, false,
    true on three dates it is 4691249611844266 * 2^-46
    (66.66666666666666), not 200/3. *)
Theorem completion_rate_rounded st habit info h :
  habit_data st !! habit = Some info →
  get_history info = h →
  (h = ∅ → completion_rate_of st habit = inr (Int 0))
  ∧ (h ≠ ∅ →
     ∃ f q,
       completion_rate_of st habit = inr (Float f)
       ∧ float_value f = Some q
       ∧ (0 <= q <= 100)%Q
       ∧ (Qabs (q - 100 * inject_Z (Z.of_nat (history_completed h))
                    / inject_Z (Z.of_nat (history_total h)))
          < 2 ^ (-45))%Q
       ∧ (history_completed h = 0%nat → f = S754_zero false)
       ∧ (history_completed h = history_total h → (q == 100)%Q))
  ∧ (∀ d1 d2 d3 : string,
       d1 ≠ d2 → d1 ≠ d3 → d2 ≠ d3 →
       h = <[d1 := true]> (<[d2 := false]> {[d3 := true]}) →
       completion_rate_of st habit
       = inr (Float (S754_finite false 4691249611844266 (-46)))).
Proof.
  intros Hinfo Hh. unfold completion_rate_of. rewrite Hinfo.
  rewrite completion_rate_counts, Hh. split; [| split].
  - intros ->. reflexivity.
  - intros Hne.
    pose proof (history_completed_le_total h) as Hle.
    assert (history_total h ≠ 0%nat) as Ht
      by (unfold history_total; by apply map_size_non_empty_iff).
    set (c := history_completed h) in *. set (t := history_total h) in *.
    destruct (rate_of_counts_spec (Z.of_nat c) (Z.of_nat t))
      as (m & e & -> & Hm & He & Herr & H0 & Hfull); [lia | lia |].
    destruct (float_value_mk64 m e) as (q & Hval & Hq); [lia | lia |].
    destruct (rate_value_bounds m e (Z.of_nat c) (Z.of_nat t) q)
      as [Hrange Habs]; [done | lia | lia | done | done |].
    exists (mk64 m e), q.
    split; [done |]. split; [done |]. split; [exact Hrange |].
    split; [exact Habs |]. split.
    + intros Hc. by rewrite H0 by lia.
    + intros Hc. rewrite Hq, Hfull by lia.
      pose proof (Z.pow_pos_nonneg 2 (- e) ltac:(lia) ltac:(lia)) as HP.
      rewrite inject_Z_mult. change (inject_Z 100) with 100%Q.
      field. intros E.
      rewrite (Zlt_Qlt 0 (2 ^ (- e))), E in HP. by apply Qlt_irrefl in HP.
  - intros d1 d2 d3 H12 H13 H23 ->.
    destruct (history_counts_three d1 d2 d3 H12 H13 H23) as [-> ->].
    vm_compute. reflexivity.
Qed.

Lemma completion_rate_rounded_witness :
  completion_rate_of run_store "run" = inr (Int 0)
  ∧ (∃ f q,
       completion_rate_of run_store_rated "run" = inr (Float f)
       ∧ float_value f = Some q
       ∧ (0 <= q <= 100)%Q
       ∧ (Qabs (q - 100 * inject_Z 2 / inject_Z 3) < 2 ^ (-45))%Q)
  ∧ completion_rate_of run_store_rated "run"
    = inr (Float (S754_finite false 4691249611844266 (-46))).
Proof.
  split; [| split].
  - destruct (completion_rate_rounded run_store "run"
                {| category := "Health"; goal := "Daily"; streak := 0;
                   history := Some ∅ |} ∅) as (Hempty & _);
      [reflexivity | reflexivity |].
    apply Hempty. reflexivity.
  - destruct (completion_rate_rounded run_store_rated "run" run_info_rated
                (get_history run_info_rated)) as (_ & Hrate & _);
      [reflexivity | reflexivity |].
    destruct Hrate as (f & q & Hf & Hq & Hrange & Habs & _).
    + apply (bool_decide_unpack _). vm_compute. exact I.
    + exists f, q. split; [exact Hf |]. split; [exact Hq |].
      split; [exact Hrange | exact Habs].
  - destruct (completion_rate_rounded run_store_rated "run" run_info_rated
                (get_history run_info_rated)) as (_ & _ & Hthree);
      [reflexivity | reflexivity |].
    apply (Hthree "2024-05-01" "2024-05-02" "2024-05-03")%string.
    + discriminate.
    + discriminate.
    + discriminate.
    + reflexivity.
Defined.

(** C5, as stated, fails on its own example.  For the history with the
    values true, false, true the block computes 2 / 3, rounds it to a
    float, multiplies by 100.0 and rounds again.  The result is the
    float 4691249611844266 * 2^-46; its value is below 200/3 by
    1 / (3 * 2^45), and it is not the float nearest to 200/3 either,
    which is what the single division 200 / 3 gives. *)
Lemma completion_rate_counterexample :
  completion_rate_of run_store_rated "run"
  = inr (Float (S754_finite false 4691249611844266 (-46)))
  ∧ (∃ q, float_value (S754_finite false 4691249611844266 (-46)) = Some q
          ∧ ¬ (q == 200 # 3)%Q
          ∧ ((200 # 3) - q == 1 # (3 * 2 ^ 45))%Q)
  ∧ int_truediv 200 3 = inr (S754_finite false 4691249611844267 (-46)).
Proof.
  split; [vm_compute; reflexivity |]. split; [| vm_compute; reflexivity].
  eexists. split; [reflexivity |]. split.
  - vm_compute. discriminate.
  - vm_compute. reflexivity.
Qed.

(** ** The file follows the session *)

Lemma startup_snapshot st r :
  startup (snapshot st r) = (py_of_state st, false).
Proof. destruct st as [l hd]. reflexivity. Qed.

(** A handler that changed the store has saved it: the next first run of
    the script reads the new store back, without warning. *)
Lemma handle_saves_changes st r m st' r' :
  handle (st, r) m = inr (st', r') →
  st' ≠ st →
  startup r' = (py_of_state st', false).
Proof.
  unfold handle. simpl fst. simpl snd.
  destruct (apply_mutation st m) as [e | st1] eqn:E; [done |].
  intros [= <- <-] Hne.
  destruct m as [n c g | n | n d b]; simpl in E.
  - injection E as <-.
    destruct (add_habit st n c g) as [st2 o] eqn:Ea.
    pose proof (add_habit_failures st n c g) as (_ & _ & _ & Hsame).
    rewrite Ea in Hsame. simpl in *.
    destruct o; [apply startup_snapshot | ..];
      by destruct Hne; apply Hsame.
  - apply startup_snapshot.
  - unfold record_checkin in E.
    destruct (habit_data st !! n) as [info |]; [| done].
    case_bool_decide; [apply startup_snapshot |].
    injection E as <-. done.
Qed.

(** * Further properties of the handlers *)

(** ** Remove Habit handler *)

Lemma list_remove_is_Some x l : is_Some (list_remove x l) ↔ x ∈ l.
Proof.
  rewrite <- not_eq_None_Some, list_remove_none.
  destruct (decide (x ∈ l)); tauto.
Qed.

Lemma filter_other_names (x : string) (l : list string) :
  x ∉ l → filter (λ y, y ≠ x) l = l.
Proof.
  induction l as [| y l IH]; [done |].
  intros [Hy Hl]%not_elem_of_cons.
  rewrite filter_cons_True by done. by rewrite IH.
Qed.

Lemma list_remove_NoDup_filter x l l' :
  NoDup l → list_remove x l = Some l' → l' = filter (λ y, y ≠ x) l.
Proof.
  revert l'. induction l as [| y l IH]; intros l' Hnd H; simpl in H; [done |].
  apply NoDup_cons in Hnd as [Hy Hnd].
  destruct (decide (y = x)) as [-> | Hne].
  - injection H as <-. rewrite filter_cons_False by (intros ?; done).
    symmetry. by apply filter_other_names.
  - destruct (list_remove x l) as [l1 |] eqn:E; [| done].
    injection H as <-. rewrite filter_cons_True by done.
    f_equal. by apply IH.
Qed.

(** The handler raises [ValueError] exactly for a name that is not in the
    sequence; no other exception leaves the block. *)
Theorem remove_habit_raises st n :
  (remove_habit st n = inl ValueError ↔ n ∉ habits st)
  ∧ ((∃ st', remove_habit st n = inr st') ↔ n ∈ habits st)
  ∧ (∀ e, remove_habit st n = inl e → e = ValueError).
Proof.
  unfold remove_habit.
  destruct (list_remove n (habits st)) as [l |] eqn:E.
  - assert (n ∈ habits st) as Hin by (apply list_remove_is_Some; eauto).
    split; [split; [done | tauto] |]. split; [| done].
    split; [done | eauto].
  - apply list_remove_none in E.
    split; [done |]. split; [| by intros e [= <-]].
    split; [by intros [? ?] | done].
Qed.

(** On a store whose sequence lists no name twice, removing a habit drops
    it from the sequence and from the mapping and touches nothing else:
    the other names keep their order and their entries. *)
Theorem remove_habit_effect st n st' :
  unique_names st →
  remove_habit st n = inr st' →
  (n ∉ habits st')
  ∧ habit_data st' !! n = None
  ∧ habits st' = filter (λ name, name ≠ n) (habits st)
  ∧ ∀ name, name ≠ n → habit_data st' !! name = habit_data st !! name.
Proof.
  unfold unique_names, remove_habit. intros Hnd H.
  destruct (list_remove n (habits st)) as [l |] eqn:E; [| done].
  injection H as <-. simpl.
  pose proof (list_remove_NoDup_filter _ _ _ Hnd E) as ->.
  split; [rewrite list_elem_of_filter; tauto |].
  split; [| split; [done |]].
  - case_bool_decide as Hn; [apply lookup_delete_eq |].
    by apply eq_None_not_Some.
  - intros name Hne. case_bool_decide; [| done].
    by rewrite lookup_delete_ne.
Qed.

Lemma remove_habit_effect_witness :
  (("run" : string) ∉ habits empty_state)
  ∧ habit_data empty_state !! "run" = None
  ∧ habits empty_state
    = filter (λ name, name ≠ "run"%string) (habits run_store)
  ∧ ∀ name, name ≠ "run"%string →
            habit_data empty_state !! name = habit_data run_store !! name.
Proof.
  apply (remove_habit_effect run_store "run" empty_state).
  - unfold unique_names. apply (bool_decide_unpack _). vm_compute. exact I.
  - vm_compute. reflexivity.
Defined.

(** ** Add Habit handler *)

(** Adding a new name and removing it again gives the store back. *)
Theorem add_then_remove st n c g :
  n ≠ ""%string →
  n ∉ habits st →
  habit_data st !! n = None →
  remove_habit (add_habit st n c g).1 n = inr st.
Proof.
  intros Hne Hnew Hdata. rewrite add_habit_added by done.
  unfold remove_habit. simpl.
  assert (list_remove n (habits st ++ [n]) = Some (habits st)) as ->.
  { clear Hdata. induction (habits st) as [| y l IH]; simpl.
    - by rewrite decide_True.
    - apply not_elem_of_cons in Hnew as [Hy Hl].
      rewrite decide_False by done. by rewrite IH. }
  rewrite bool_decide_eq_true_2 by (rewrite lookup_insert_eq; eauto).
  rewrite delete_insert_id by done. by destruct st.
Qed.

Lemma add_then_remove_witness :
  remove_habit (add_habit run_store "read" "Personal Growth" "Weekly").1
    "read"
  = inr run_store.
Proof.
  apply (add_then_remove run_store "read" "Personal Growth" "Weekly").
  - discriminate.
  - apply (bool_decide_unpack _). vm_compute. exact I.
  - reflexivity.
Defined.

(** Adding a habit never touches the entries of the other names, keeps
    the names already listed in their order at the front, and a second
    add of the same name changes nothing and is not reported as added. *)
Theorem add_habit_frame st n c g :
  (∀ name, name ≠ n →
     habit_data (add_habit st n c g).1 !! name = habit_data st !! name)
  ∧ habits st `prefix_of` habits (add_habit st n c g).1
  ∧ ∀ c' g',
      (add_habit (add_habit st n c g).1 n c' g').1 = (add_habit st n c g).1
      ∧ (add_habit (add_habit st n c g).1 n c' g').2 ≠ Added.
Proof.
  destruct (decide (n ∈ habits st)) as [Hin | Hnew].
  { rewrite add_habit_duplicate by done. simpl.
    split; [done |]. split; [done |]. intros c' g'.
    by rewrite add_habit_duplicate. }
  destruct (decide (n = ""%string)) as [-> | Hne].
  { rewrite add_habit_empty_name by done. simpl.
    split; [done |]. split; [done |]. intros c' g'.
    by rewrite add_habit_empty_name. }
  rewrite add_habit_added by done. simpl.
  split; [intros name Hname; by rewrite lookup_insert_ne |].
  split; [by apply prefix_app_r |]. intros c' g'.
  rewrite add_habit_duplicate; [done |]. simpl.
  apply elem_of_app. right. by apply list_elem_of_singleton.
Qed.

(** ** Check-in block *)

(** A check-in raises [KeyError] exactly when the name has no entry.
    Otherwise it leaves the name sequence and the entries of all other
    habits as they are; in the entry of the habit itself the category, the
    goal and the status of every other date stay the same. *)
Theorem record_checkin_frame st habit date_str b :
  (record_checkin st habit date_str b = inl KeyError
   ↔ habit_data st !! habit = None)
  ∧ ∀ st',
      record_checkin st habit date_str b = inr st' →
      habits st' = habits st
      ∧ (∀ name, name ≠ habit →
           habit_data st' !! name = habit_data st !! name)
      ∧ ∃ info info',
          habit_data st !! habit = Some info
          ∧ habit_data st' !! habit = Some info'
          ∧ category info' = category info
          ∧ goal info' = goal info
          ∧ ∀ d, d ≠ date_str →
                 get_history info' !! d = get_history info !! d.
Proof.
  unfold record_checkin.
  destruct (habit_data st !! habit) as [info |] eqn:E.
  - split; [split; [by case_bool_decide | done] |].
    intros st' H. case_bool_decide; injection H as <-; simpl.
    + split; [done |].
      split; [intros name Hne; by rewrite lookup_insert_ne |].
      exists info, (apply_checkin info date_str b).
      split; [done |]. split; [apply lookup_insert_eq |].
      split; [done |]. split; [done |]. intros d Hd.
      rewrite get_history_apply_checkin. by rewrite lookup_insert_ne.
    + split; [done |]. split; [done |]. by exists info, info.
  - split; [done |]. intros st' H. done.
Qed.

(** Unticking a date recorded as completed resets the streak to 0,
    whatever the streak was and whichever date it is, and records the
    date as not completed. *)
Theorem untick_resets_streak st habit info date_str :
  habit_data st !! habit = Some info →
  get_history info !! date_str = Some true →
  ∃ st',
    record_checkin st habit date_str false = inr st'
    ∧ streak_of st' habit = Some 0
    ∧ history_of st' habit = Some (<[date_str := false]> (get_history info)).
Proof.
  intros Hinfo Hd. eexists. split.
  - apply (record_checkin_changed _ _ _ Hinfo).
    by rewrite (current_status_recorded _ _ _ Hd).
  - unfold streak_of, history_of. simpl. rewrite lookup_insert_eq. simpl.
    by rewrite get_history_apply_checkin.
Qed.

Lemma untick_resets_streak_witness :
  ∃ st',
    record_checkin run_store_checked "run" "2024-05-01" false = inr st'
    ∧ streak_of st' "run" = Some 0
    ∧ history_of st' "run"
      = Some (<["2024-05-01" := false]> (get_history run_info_checked)).
Proof.
  apply (untick_resets_streak run_store_checked "run" run_info_checked
           "2024-05-01"); reflexivity.
Defined.

(** Ticking a date without entry and unticking it again does not give
    the store back: the streak is 0 instead of its former value and the
    date now has an explicit entry, not completed. *)
Theorem tick_then_untick st habit info date_str :
  habit_data st !! habit = Some info →
  get_history info !! date_str = None →
  ∃ st1 st2,
    record_checkin st habit date_str true = inr st1
    ∧ record_checkin st1 habit date_str false = inr st2
    ∧ streak_of st2 habit = Some 0
    ∧ history_of st2 habit = Some (<[date_str := false]> (get_history info)).
Proof.
  intros Hinfo Hd.
  destruct (record_checkin_tick st habit info date_str Hinfo Hd)
    as (st1 & info1 & E1 & L1 & S1 & G1).
  destruct (untick_resets_streak st1 habit info1 date_str L1)
    as (st2 & E2 & S2 & H2).
  { rewrite G1. apply lookup_insert_eq. }
  exists st1, st2. split; [done |]. split; [done |]. split; [done |].
  by rewrite H2, G1, insert_insert_eq.
Qed.

Lemma tick_then_untick_witness :
  ∃ st1 st2,
    record_checkin run_store_checked "run" "2024-05-03" true = inr st1
    ∧ record_checkin st1 "run" "2024-05-03" false = inr st2
    ∧ streak_of st2 "run" = Some 0
    ∧ history_of st2 "run"
      = Some (<["2024-05-03" := false]> (get_history run_info_checked)).
Proof.
  apply (tick_then_untick run_store_checked "run" run_info_checked
           "2024-05-03"); reflexivity.
Defined.

(** ** Completion counts *)

Lemma history_completed_delete (h : gmap string bool) (d : string) (b : bool) :
  h !! d = Some b →
  history_completed h
  = ((if b then 1 else 0) + history_completed (delete d h))%nat.
Proof.
  intros Hd. rewrite <- (insert_delete_id h d b Hd) at 1.
  apply history_completed_insert_fresh, lookup_delete_eq.
Qed.

Lemma history_completed_insert (h : gmap string bool) (d : string) (b : bool) :
  history_completed (<[d := b]> h)
  = ((if b then 1 else 0) + history_completed (delete d h))%nat.
Proof.
  rewrite <- insert_delete_eq.
  apply history_completed_insert_fresh, lookup_delete_eq.
Qed.

Lemma history_total_insert (h : gmap string bool) (d : string) (b : bool) :
  history_total (<[d := b]> h)
  = match h !! d with
    | Some _ => history_total h
    | None => S (history_total h)
    end.
Proof.
  unfold history_total. destruct (h !! d) as [x |] eqn:E.
  - by apply map_size_insert_Some.
  - by apply map_size_insert_None.
Qed.

(** A check-in that changes the status of a date moves the counts the
    completion rate is computed from by one: ticking adds one completed
    date, unticking takes one away, and the number of recorded dates
    grows by one exactly when the date had no entry. *)
Theorem checkin_moves_counts st habit info date_str b :
  habit_data st !! habit = Some info →
  b ≠ current_status info date_str →
  ∃ st' info',
    record_checkin st habit date_str b = inr st'
    ∧ habit_data st' !! habit = Some info'
    ∧ (if b
       then history_completed (get_history info')
            = S (history_completed (get_history info))
       else S (history_completed (get_history info'))
            = history_completed (get_history info))
    ∧ history_total (get_history info')
      = match get_history info !! date_str with
        | Some _ => history_total (get_history info)
        | None => S (history_total (get_history info))
        end.
Proof.
  intros Hinfo Hne. eexists _, _.
  split; [by apply (record_checkin_changed _ _ _ Hinfo) |].
  split; [apply lookup_insert_eq |].
  rewrite get_history_apply_checkin, history_total_insert.
  split; [| done]. rewrite history_completed_insert.
  unfold current_status in Hne.
  destruct (get_history info !! date_str) as [x |] eqn:E.
  - rewrite (history_completed_delete _ _ _ E).
    destruct b, x; done.
  - rewrite delete_id by done. destruct b; done.
Qed.

Lemma checkin_moves_counts_witness :
  ∃ st' info',
    record_checkin run_store_checked "run" "2024-05-02" true = inr st'
    ∧ habit_data st' !! "run" = Some info'
    ∧ history_completed (get_history info')
      = S (history_completed (get_history run_info_checked))
    ∧ history_total (get_history info')
      = match get_history run_info_checked !! "2024-05-02" with
        | Some _ => history_total (get_history run_info_checked)
        | None => S (history_total (get_history run_info_checked))
        end.
Proof.
  apply (checkin_moves_counts run_store_checked "run" run_info_checked
           "2024-05-02" true).
  - reflexivity.
  - vm_compute. discriminate.
Defined.

(** ** The streak never exceeds the completed dates *)

Lemma mutations_keep_streaks_bounded st m st' :
  streaks_bounded st →
  apply_mutation st m = inr st' →
  streaks_bounded st'.
Proof.
  intros Hb H habit info'. destruct m as [n c g | n | n d b]; simpl in H.
  - injection H as <-.
    destruct (decide (n ∈ habits st)) as [Hin | Hnew].
    { rewrite add_habit_duplicate by done. apply Hb. }
    destruct (decide (n = ""%string)) as [-> | Hne].
    { rewrite add_habit_empty_name by done. apply Hb. }
    rewrite add_habit_added by done. simpl.
    destruct (decide (n = habit)) as [<- | Hother].
    + rewrite lookup_insert_eq. intros [= <-]. simpl. by exists ∅.
    + rewrite lookup_insert_ne by done. apply Hb.
  - unfold remove_habit in H.
    destruct (list_remove n (habits st)); [| done].
    injection H as <-. simpl. case_bool_decide; [| apply Hb].
    intros [_ Hl]%lookup_delete_Some. by apply (Hb habit).
  - unfold record_checkin in H.
    destruct (habit_data st !! n) as [info |] eqn:E; [| done].
    case_bool_decide as Hne; injection H as <-; [| apply Hb]. simpl.
    destruct (decide (n = habit)) as [<- | Hother].
    + rewrite lookup_insert_eq. intros [= <-].
      destruct (Hb n info E) as (h & Hh & Hs).
      exists (<[d := b]> h). unfold apply_checkin. rewrite Hh. simpl.
      split; [done |]. destruct b; [| lia].
      rewrite history_completed_insert.
      unfold current_status, get_history in Hne. rewrite Hh in Hne.
      simpl in Hne.
      destruct (h !! d) as [x |] eqn:Ed.
      * rewrite (history_completed_delete _ _ _ Ed) in Hs.
        destruct x; [done | simpl in *; lia].
      * rewrite delete_id by done. simpl. lia.
    + rewrite lookup_insert_ne by done. apply Hb.
Qed.

(** In every store the handlers build from the empty store, each habit
    has a history and its streak is at least 0 and at most the number of
    dates its history records as completed. *)
Theorem reachable_streak_bounds st habit info :
  reachable st →
  habit_data st !! habit = Some info →
  ∃ h, history info = Some h
       ∧ 0 ≤ streak info ≤ Z.of_nat (history_completed h).
Proof.
  intros Hr. revert habit info. change (streaks_bounded st).
  induction Hr as [| st m st' _ IH Hstep].
  - intros habit info. simpl. by rewrite lookup_empty.
  - by apply (mutations_keep_streaks_bounded st m).
Qed.

Lemma reachable_streak_bounds_witness :
  ∃ h, history {| category := "Health"; goal := "Daily"; streak := 0;
                  history := Some ∅ |} = Some h
       ∧ 0 ≤ 0 ≤ Z.of_nat (history_completed h).
Proof.
  apply (reachable_streak_bounds run_store "run"
           {| category := "Health"; goal := "Daily"; streak := 0;
              history := Some ∅ |}).
  - apply (reachable_step empty_state (Add "run" "Health" "Daily")).
    + apply reachable_empty.
    + reflexivity.
  - reflexivity.
Defined.

(** ** The check-in loop of one run *)

Lemma record_checkin_entry st habit info date_str b :
  habit_data st !! habit = Some info →
  ∃ st',
    record_checkin st habit date_str b = inr st'
    ∧ habits st' = habits st
    ∧ habit_data st' = <[habit := checkin_entry info date_str b]> (habit_data st).
Proof.
  intros Hinfo. unfold record_checkin, checkin_entry. rewrite Hinfo.
  case_bool_decide; eexists; (split; [done |]); split; try done.
  by rewrite insert_id.
Qed.

Lemma checkin_loop_effect names st date_str checkbox :
  NoDup names →
  (∀ name, name ∈ names → is_Some (habit_data st !! name)) →
  ∃ st',
    checkin_loop names st date_str checkbox = inr st'
    ∧ habits st' = habits st
    ∧ ∀ habit,
        habit_data st' !! habit
        = if bool_decide (habit ∈ names)
          then (λ info, checkin_entry info date_str (checkbox habit))
                 <$> habit_data st !! habit
          else habit_data st !! habit.
Proof.
  revert st.
  induction names as [| n names IH]; intros st Hnd Hin; cbn [checkin_loop].
  - exists st. split; [done |]. split; [done |]. intros habit.
    by rewrite bool_decide_eq_false_2 by apply not_elem_of_nil.
  - apply NoDup_cons in Hnd as [Hn Hnd].
    destruct (Hin n) as [info Hinfo]; [left |].
    destruct (record_checkin_entry st n info date_str (checkbox n) Hinfo)
      as (st1 & E1 & Hl1 & Hd1).
    rewrite E1.
    destruct (IH st1 Hnd) as (st' & E' & Hl' & Hd').
    { intros name Hname. rewrite Hd1, lookup_insert_is_Some.
      destruct (decide (n = name)); [by left | right].
      split; [done |]. apply Hin. by right. }
    exists st'. split; [done |]. split; [congruence |].
    intros habit. rewrite Hd', Hd1.
    destruct (decide (habit = n)) as [-> | Hne].
    + rewrite (bool_decide_eq_false_2 (n ∈ names)) by done.
      rewrite (bool_decide_eq_true_2 (n ∈ n :: names)) by left.
      by rewrite lookup_insert_eq, Hinfo.
    + rewrite lookup_insert_ne by done.
      destruct (decide (habit ∈ names)) as [Hh | Hh].
      * rewrite !bool_decide_eq_true_2; [done | by right | done].
      * rewrite !bool_decide_eq_false_2; [done | | done].
        by intros [? | ?]%elem_of_cons.
Qed.

(** One run of the check-in loop over a store in sync with unique names
    raises nothing, keeps the name sequence, and leaves every habit with
    the entry the block gives for its own checkbox: the habits do not
    interfere with each other. *)
Theorem daily_checkin_effect st date_str checkbox :
  unique_names st →
  in_sync st →
  ∃ st',
    daily_checkin st date_str checkbox = inr st'
    ∧ habits st' = habits st
    ∧ ∀ habit,
        habit_data st' !! habit
        = (λ info, checkin_entry info date_str (checkbox habit))
            <$> habit_data st !! habit.
Proof.
  intros Hnd Hs.
  destruct (checkin_loop_effect (habits st) st date_str checkbox Hnd)
    as (st' & E & Hl & Hd); [intros name; apply Hs |].
  exists st'. split; [done |]. split; [done |].
  intros habit. rewrite Hd. case_bool_decide as Hin; [done |].
  destruct (habit_data st !! habit) eqn:Eh; [| done].
  destruct Hin. apply Hs. by rewrite Eh.
Qed.

Lemma daily_checkin_effect_witness :
  ∃ st',
    daily_checkin run_store_checked "2024-05-03" (λ _, true) = inr st'
    ∧ habits st' = habits run_store_checked
    ∧ ∀ habit,
        habit_data st' !! habit
        = (λ info, checkin_entry info "2024-05-03" true)
            <$> habit_data run_store_checked !! habit.
Proof.
  apply (daily_checkin_effect run_store_checked "2024-05-03" (λ _, true)).
  - unfold unique_names. apply (bool_decide_unpack _). vm_compute. exact I.
  - apply in_sync_b_spec. vm_compute. reflexivity.
Defined.

(** A run in which every checkbox shows the recorded status changes
    nothing: rerunning the script without a click leaves the store as it
    is. *)
Theorem daily_checkin_unchanged st date_str checkbox :
  (∀ habit, habit ∈ habits st →
     ∃ info, habit_data st !! habit = Some info
             ∧ checkbox habit = current_status info date_str) →
  daily_checkin st date_str checkbox = inr st.
Proof.
  unfold daily_checkin. generalize (habits st) as names.
  induction names as [| n names IH]; intros Hall; simpl; [done |].
  destruct (Hall n) as (info & Hinfo & Hbox); [left |].
  rewrite (record_checkin_same st n info Hinfo date_str (checkbox n) Hbox).
  apply IH. intros habit Hin. apply Hall. by right.
Qed.

Lemma daily_checkin_unchanged_witness :
  daily_checkin run_store_checked "2024-05-01" (λ _, true)
  = inr run_store_checked.
Proof.
  apply (daily_checkin_unchanged run_store_checked "2024-05-01" (λ _, true)).
  intros habit Hin. exists run_info_checked.
  apply list_elem_of_singleton in Hin. subst habit.
  split; reflexivity.
Defined.

(** ** The file follows the session, continued *)

Lemma list_remove_length x l l' :
  list_remove x l = Some l' → length l = S (length l').
Proof.
  revert l'. induction l as [| y l IH]; intros l' H; simpl in H; [done |].
  destruct (decide (y = x)) as [-> | Hne].
  - by injection H as <-.
  - destruct (list_remove x l) as [l1 |]; [| done].
    injection H as <-. simpl. f_equal. by apply IH.
Qed.

Lemma current_status_apply_checkin info d b :
  current_status (apply_checkin info d b) d = b.
Proof.
  unfold current_status, get_history, apply_checkin. simpl.
  by rewrite lookup_insert_eq.
Qed.

(** Once the file holds the store, it holds the store after every
    handler: a start of the script over the file left by a handler reads
    back the store the handler left, without warning.  The handler writes
    the file exactly when it changes the store: a handler that returns
    the store it was given (a rejected Add, a check-in that equals the
    recorded status) leaves the file as it was, and every other handler
    leaves the snapshot of the new store. *)
Theorem handle_keeps_file_current st r m st' r' :
  startup r = (py_of_state st, false) →
  handle (st, r) m = inr (st', r') →
  startup r' = (py_of_state st', false)
  ∧ ((st' = st ∧ r' = r) ∨ (st' ≠ st ∧ r' = snapshot st' r)).
Proof.
  intros Hcur. unfold handle. simpl fst. simpl snd.
  destruct (apply_mutation st m) as [e | st1] eqn:E; [done |].
  intros [= <- <-].
  assert ((st1 = st
           ∧ (if match m with
                  | Add n c g =>
                      match (add_habit st n c g).2 with
                      | Added => true
                      | _ => false
                      end
                  | Remove _ => true
                  | Checkin n d b =>
                      match habit_data st !! n with
                      | Some info => bool_decide (b ≠ current_status info d)
                      | None => false
                      end
                  end
              then snapshot st1 r else r) = r)
          ∨ (st1 ≠ st
             ∧ (if match m with
                    | Add n c g =>
                        match (add_habit st n c g).2 with
                        | Added => true
                        | _ => false
                        end
                    | Remove _ => true
                    | Checkin n d b =>
                        match habit_data st !! n with
                        | Some info => bool_decide (b ≠ current_status info d)
                        | None => false
                        end
                    end
                then snapshot st1 r else r) = snapshot st1 r)) as Hcases.
  { destruct m as [n c g | n | n d b]; simpl in E.
    - injection E as <-. unfold add_habit.
      destruct (str_truthy n && bool_decide (n ∉ habits st)); simpl.
      + right. split; [| done]. intros Heq.
        apply (f_equal (λ s, length (habits s))) in Heq. simpl in Heq.
        rewrite length_app in Heq. simpl in Heq. lia.
      + left. by destruct (bool_decide (n ∈ habits st)).
    - right. split; [| done]. unfold remove_habit in E.
      destruct (list_remove n (habits st)) as [l |] eqn:El; [| done].
      injection E as <-. intros Heq.
      apply (f_equal (λ s, length (habits s))) in Heq. simpl in Heq.
      apply list_remove_length in El. lia.
    - unfold record_checkin in E.
      destruct (habit_data st !! n) as [info |] eqn:Hinfo; [| done].
      case_bool_decide as Hb.
      + right. split; [| done]. injection E as <-. intros Heq.
        apply (f_equal (λ s, habit_data s !! n)) in Heq. simpl in Heq.
        rewrite lookup_insert_eq, Hinfo in Heq. injection Heq as Heq.
        apply Hb. rewrite <- Heq.
        symmetry. apply current_status_apply_checkin.
      + left. by injection E as <-. }
  destruct Hcases as [[-> ->] | [Hne ->]].
  - split; [done | by left].
  - split; [apply startup_snapshot | by right].
Qed.

Lemma handle_keeps_file_current_witness :
  startup (snapshot run_store None) = (py_of_state run_store, false)
  ∧ ((run_store = run_store ∧ snapshot run_store None = snapshot run_store None)
     ∨ (run_store ≠ run_store
        ∧ snapshot run_store None
          = snapshot run_store (snapshot run_store None))).
Proof.
  apply (handle_keeps_file_current run_store (snapshot run_store None)
           (Checkin "run" "2024-05-01" false)
           run_store (snapshot run_store None)).
  - reflexivity.
  - reflexivity.
Defined.

(** A file whose document has the key "habits" but not "habit_data":
    [load_data] has already replaced the name sequence when the second
    lookup raises [KeyError].  The session keeps its former mapping, so
    on the first run the warning is shown over a store that lists the
    names of the file with an empty mapping. *)
Theorem load_data_partial (d : gmap string pyval) (h : pyval)
    (s0 : py_session) :
  d !! "habits" = Some h →
  d !! "habit_data" = None →
  load_data {| session := s0; file := Some (Document (PyDict d)) |}
  = (inl KeyError,
     {| session := {| py_habits := h;
                      py_habit_data := py_habit_data s0 |};
        file := Some (Document (PyDict d)) |})
  ∧ startup (Some (Document (PyDict d)))
    = ({| py_habits := h; py_habit_data := PyDict ∅ |}, true).
Proof.
  intros Hh Hd.
  assert (load_data {| session := s0; file := Some (Document (PyDict d)) |}
          = (inl KeyError,
             {| session := {| py_habits := h;
                              py_habit_data := py_habit_data s0 |};
                file := Some (Document (PyDict d)) |})) as Hload.
  { unfold load_data, bind, path_exists, json_load, py_getitem. simpl.
    rewrite Hh. simpl. by rewrite Hd. }
  split; [done |]. unfold startup, try_load.
  unfold load_data, bind, path_exists, json_load, py_getitem. simpl.
  rewrite Hh. simpl. by rewrite Hd.
Qed.

Lemma load_data_partial_witness :
  load_data {| session := py_of_state run_store;
               file := Some (Document truncated_document) |}
  = (inl KeyError,
     {| session := {| py_habits := PyList [PyStr "run"];
                      py_habit_data := py_habit_data (py_of_state run_store) |};
        file := Some (Document truncated_document) |})
  ∧ startup (Some (Document truncated_document))
    = ({| py_habits := PyList [PyStr "run"]; py_habit_data := PyDict ∅ |},
       true).
Proof.
  apply (load_data_partial {[ "habits" := PyList [PyStr "run"] ]}
           (PyList [PyStr "run"]) (py_of_state run_store)); reflexivity.
Defined.

(** ** Calendar view, continued *)

(** Lines 188-194 compute the length of the month: 30 or 31 days by the
    month, and for February 29 days in a leap year and 28 otherwise. *)
Theorem num_days_month_length y m :
  month_in_range y m →
  num_days y m = inr (month_length y m).
Proof.
  intros (Hy & Hm & Hnext). rewrite num_days_spec by done. f_equal.
  unfold datetime.days_in_month, month_length, datetime.is_leap.
  month_cases m H; reflexivity.
Qed.

Lemma num_days_month_length_witness :
  num_days 2024 2 = inr (month_length 2024 2).
Proof.
  apply (num_days_month_length 2024 2).
  unfold month_in_range. lia.
Defined.

Lemma new_out_of_range_month y m :
  ¬ (1 ≤ y ≤ 9999 ∧ 1 ≤ m ≤ 12) →
  datetime.new y m 1
  = inl (if datetime.fits_int y && datetime.fits_int m
         then ValueError else OverflowError).
Proof.
  intros Hout.
  unfold datetime.new, datetime.fits_int, datetime.MINYEAR, datetime.MAXYEAR.
  destruct (Z.leb_spec (-2147483648) y), (Z.leb_spec y 2147483647),
    (Z.leb_spec (-2147483648) m), (Z.leb_spec m 2147483647);
    simpl; try done.
  destruct (Z.leb_spec 1 y), (Z.leb_spec y 9999), (Z.leb_spec 1 m),
    (Z.leb_spec m 12); simpl; try done.
  lia.
Qed.

(** The cells of the grid for any habit name, in the store or not. *)
Lemma calendar_grid_cells strftime hd selected_habit y m :
  month_in_range y m →
  ∃ grid (w trailing : nat),
    calendar_grid strftime hd selected_habit y m = inr grid
    ∧ Z.of_nat w = datetime.weekday (datetime.mkdate y m 1)
    ∧ (w ≤ 6)%nat
    ∧ (trailing ≤ 6)%nat
    ∧ Forall (λ week, length week = 7%nat) grid
    ∧ concat grid
      = replicate w None
        ++ ((λ d, make_cell strftime hd selected_habit d
                    (datetime.mkdate y m d))
              <$> seqZ 1 (datetime.days_in_month y m))
        ++ replicate trailing None.
Proof.
  intros (Hy & Hm & Hnext).
  pose proof (days_in_month_bounds y m Hm) as Hdim.
  set (n := datetime.days_in_month y m) in *.
  set (first_day := datetime.mkdate y m 1).
  set (w := Z.to_nat (datetime.weekday first_day)).
  assert (0 ≤ datetime.weekday first_day < 7) as Hwd
    by (apply Z.mod_pos_bound; done).
  assert (datetime.new y m 1 = inr first_day) as Hfirst
    by (apply new_valid; fold n; lia).
  destruct (fill_days_spec strftime hd selected_habit y m (seqZ 1 n) []
              (leading_cells (datetime.weekday first_day)))
    as (cal & week & Hfill & Hcal & Hweek & Hcat).
  { intros d [Hd1 Hd2]%elem_of_seqZ. apply new_valid; fold n; lia. }
  { constructor. }
  { rewrite leading_cells_replicate, length_replicate. fold w. lia. }
  cbv zeta in Hcat. simpl in Hcat.
  rewrite leading_cells_replicate in Hcat. fold w in Hcat.
  unfold calendar_grid. rewrite Hfirst, num_days_spec by done.
  fold n. rewrite Hfill.
  destruct week as [| c week].
  - exists cal, w, 0%nat. rewrite app_nil_r in Hcat.
    split; [done |]. split; [unfold w; lia |]. split; [lia |].
    split; [lia |]. split; [done |]. by rewrite Hcat, app_nil_r.
  - exists (cal ++ [(c :: week) ++ replicate (7 - length (c :: week)) None]),
      w, (7 - length (c :: week))%nat.
    split; [by rewrite pad_week_replicate by lia |].
    split; [unfold w; lia |]. split; [lia |].
    split; [simpl; lia |]. split.
    + apply Forall_app. split; [done |]. apply Forall_singleton.
      rewrite length_app, length_replicate. simpl in *. lia.
    + rewrite concat_app. cbn [concat]. rewrite app_nil_r.
      rewrite (app_assoc (concat cal)), Hcat.
      by rewrite <- !app_assoc.
Qed.

(** The calendar block returns a grid exactly for the months in range.
    For every other year and month it raises, whatever the store holds:
    [ValueError] when year and month fit a C [int] (December 9999
    included), and [OverflowError] when one of them does not. *)
Theorem calendar_grid_returns strftime hd selected_habit y m :
  (month_in_range y m →
   ∃ grid, calendar_grid strftime hd selected_habit y m = inr grid)
  ∧ (¬ month_in_range y m →
     calendar_grid strftime hd selected_habit y m
     = inl (if datetime.fits_int y && datetime.fits_int m
            then ValueError else OverflowError)).
Proof.
  split.
  - intros Hr.
    destruct (calendar_grid_cells strftime hd selected_habit y m Hr)
      as (grid & _ & _ & E & _). eauto.
  - intros Hout. unfold calendar_grid.
    destruct (decide (1 ≤ y ≤ 9999 ∧ 1 ≤ m ≤ 12)) as [[Hy Hm] | Hbad].
    + assert (y = 9999 ∧ m = 12) as [-> ->]
        by (unfold month_in_range in Hout; lia).
      reflexivity.
    + by rewrite new_out_of_range_month.
Qed.

Lemma calendar_grid_returns_witness :
  (∃ grid,
     calendar_grid datetime.strftime_ymd (habit_data run_store) "run" 2024 2
     = inr grid)
  ∧ calendar_grid datetime.strftime_ymd (habit_data run_store) "run" 2024 13
    = inl ValueError
  ∧ calendar_grid datetime.strftime_ymd (habit_data run_store) "run"
      2147483648 1
    = inl OverflowError.
Proof.
  split; [| split].
  - apply (calendar_grid_returns datetime.strftime_ymd (habit_data run_store)
             "run" 2024 2).
    unfold month_in_range. lia.
  - apply (calendar_grid_returns datetime.strftime_ymd (habit_data run_store)
             "run" 2024 13).
    unfold month_in_range. lia.
  - apply (calendar_grid_returns datetime.strftime_ymd (habit_data run_store)
             "run" 2147483648 1).
    unfold month_in_range. lia.
Defined.

Lemma elem_of_concat_week {A} (grid : list (list A)) (week : list A) x :
  week ∈ grid → x ∈ week → x ∈ concat grid.
Proof.
  induction grid as [| w0 grid IH]; [by intros ?%elem_of_nil |].
  intros [-> | Hin]%elem_of_cons Hx; simpl; apply elem_of_app.
  - by left.
  - right. by apply IH.
Qed.

(** Every day cell of the grid carries a day of the month, the date of
    that day, and the status the history gives for that date. *)
Theorem calendar_cells_sound strftime hd selected_habit y m grid week c :
  calendar_grid strftime hd selected_habit y m = inr grid →
  week ∈ grid →
  Some c ∈ week →
  1 ≤ day c ≤ month_length y m
  ∧ date c = datetime.mkdate y m (day c)
  ∧ completed c = day_status hd selected_habit (strftime (date c)).
Proof.
  intros Hgrid Hweek Hc.
  destruct (decide (1 ≤ y ≤ 9999 ∧ 1 ≤ m ≤ 12 ∧ (y < 9999 ∨ m < 12)))
    as [Hr | Hout].
  2: { destruct (calendar_grid_returns strftime hd selected_habit y m)
         as [_ Herr]. rewrite Herr in Hgrid; done. }
  destruct (calendar_grid_cells strftime hd selected_habit y m Hr)
    as (grid' & w & t & E & _ & _ & _ & _ & Hcat).
  rewrite Hgrid in E. injection E as <-.
  pose proof (elem_of_concat_week grid week (Some c) Hweek Hc) as Hin.
  rewrite Hcat in Hin.
  pose proof (num_days_month_length y m Hr) as Hn.
  rewrite num_days_spec in Hn by (unfold month_in_range in Hr; tauto).
  injection Hn as Hn.
  apply elem_of_app in Hin as [Hin | Hin];
    [by apply elem_of_replicate_inv in Hin |].
  apply elem_of_app in Hin as [Hin | Hin];
    [| by apply elem_of_replicate_inv in Hin].
  apply list_elem_of_fmap in Hin as (d & Hd & [Hd1 Hd2]%elem_of_seqZ).
  unfold make_cell in Hd. injection Hd as ->. simpl.
  split; [lia | done].
Qed.

Lemma calendar_cells_sound_witness :
  1 ≤ day may_2024_first ≤ month_length 2024 5
  ∧ date may_2024_first = datetime.mkdate 2024 5 (day may_2024_first)
  ∧ completed may_2024_first
    = day_status (habit_data run_store_checked) "run"
        (datetime.strftime_ymd (date may_2024_first)).
Proof.
  apply (calendar_cells_sound datetime.strftime_ymd
           (habit_data run_store_checked) "run" 2024 5 may_2024_grid
           [None; None; Some may_2024_first;
            Some {| day := 2; completed := false;
                    date := datetime.mkdate 2024 5 2 |};
            Some {| day := 3; completed := false;
                    date := datetime.mkdate 2024 5 3 |};
            Some {| day := 4; completed := false;
                    date := datetime.mkdate 2024 5 4 |};
            Some {| day := 5; completed := false;
                    date := datetime.mkdate 2024 5 5 |}]).
  - vm_compute. reflexivity.
  - left.
  - do 2 right. left.
Defined.

(** For a name without entry in the mapping, or whose entry has no
    history, no day of the grid is shown as completed. *)
Theorem calendar_without_history strftime hd selected_habit y m grid week c :
  hd !! selected_habit = None
  ∨ (∃ info, hd !! selected_habit = Some info ∧ history info = None) →
  calendar_grid strftime hd selected_habit y m = inr grid →
  week ∈ grid →
  Some c ∈ week →
  completed c = false.
Proof.
  intros Hno Hgrid Hweek Hc.
  destruct (calendar_cells_sound strftime hd selected_habit y m grid week c
              Hgrid Hweek Hc) as (_ & _ & ->).
  unfold day_status. destruct Hno as [-> | (info & -> & ->)]; done.
Qed.

Lemma calendar_without_history_witness :
  completed may_2024_first_blank = false.
Proof.
  apply (calendar_without_history datetime.strftime_ymd
           (habit_data run_store_checked) "read" 2024 5 may_2024_blank_grid
           [None; None; Some may_2024_first_blank;
            Some {| day := 2; completed := false;
                    date := datetime.mkdate 2024 5 2 |};
            Some {| day := 3; completed := false;
                    date := datetime.mkdate 2024 5 3 |};
            Some {| day := 4; completed := false;
                    date := datetime.mkdate 2024 5 4 |};
            Some {| day := 5; completed := false;
                    date := datetime.mkdate 2024 5 5 |}]).
  - left. reflexivity.
  - vm_compute. reflexivity.
  - left.
  - do 2 right. left.
Defined.

(** The grid of a month has four, five or six weeks: as many as the
    leading cells and the days of the month need. *)
Theorem calendar_grid_weeks strftime hd selected_habit y m grid :
  calendar_grid strftime hd selected_habit y m = inr grid →
  (4 ≤ length grid ≤ 6)%nat
  ∧ length grid
    = ((Z.to_nat (datetime.weekday (datetime.mkdate y m 1))
        + Z.to_nat (month_length y m) + 6) / 7)%nat.
Proof.
  intros Hgrid.
  destruct (decide (1 ≤ y ≤ 9999 ∧ 1 ≤ m ≤ 12 ∧ (y < 9999 ∨ m < 12)))
    as [Hr | Hout].
  2: { destruct (calendar_grid_returns strftime hd selected_habit y m)
         as [_ Herr]. rewrite Herr in Hgrid; done. }
  destruct (calendar_grid_cells strftime hd selected_habit y m Hr)
    as (grid' & w & t & E & Hw & Hw6 & Ht & Hweeks & Hcat).
  rewrite Hgrid in E. injection E as <-.
  pose proof (num_days_month_length y m Hr) as Hn.
  rewrite num_days_spec in Hn by (unfold month_in_range in Hr; tauto).
  injection Hn as Hn.
  pose proof (days_in_month_bounds y m ltac:(unfold month_in_range in Hr; tauto))
    as Hdim.
  pose proof (concat_weeks_length grid Hweeks) as Hlen.
  rewrite Hcat, !length_app, !length_replicate, length_fmap, length_seqZ
    in Hlen.
  rewrite <- Hn, <- Hw, Nat2Z.id. split; [lia |].
  apply (Nat.div_unique _ 7 _ (6 - t)); lia.
Qed.

Lemma calendar_grid_weeks_witness :
  (4 ≤ length may_2024_grid ≤ 6)%nat
  ∧ length may_2024_grid
    = ((Z.to_nat (datetime.weekday (datetime.mkdate 2024 5 1))
        + Z.to_nat (month_length 2024 5) + 6) / 7)%nat.
Proof.
  apply (calendar_grid_weeks datetime.strftime_ymd
           (habit_data run_store_checked) "run" 2024 5 may_2024_grid).
  vm_compute. reflexivity.
Defined.

(** ** Check-in columns *)

(** The column picked for a habit always exists: there are between one
    and three columns, and the index [i % 3] of the habit at position [i]
    is below their number. *)
Theorem checkin_column_in_range (names : list string) (i : nat) :
  (i < length names)%nat →
  (1 ≤ num_columns names ≤ 3)%nat
  ∧ (col_idx i < num_columns names)%nat.
Proof.
  intros Hi. unfold num_columns, col_idx.
  pose proof (Nat.mod_upper_bound i 3 ltac:(done)).
  pose proof (Nat.Div0.mod_le i 3). lia.
Qed.

Lemma checkin_column_in_range_witness :
  (1 ≤ num_columns ["run"; "read"]%string ≤ 3)%nat
  ∧ (col_idx 1 < num_columns ["run"; "read"]%string)%nat.
Proof.
  apply (checkin_column_in_range ["run"; "read"]%string 1).
  simpl. lia.
Defined.

(** ** Export to CSV *)

Lemma export_loop_rows names hd acc :
  (∀ name, name ∈ names → is_Some (hd !! name)) →
  export_loop names hd acc = inr (acc ++ (names ≫= rows_of hd)).
Proof.
  revert acc. induction names as [| n names IH]; intros acc Hin; simpl.
  - by rewrite app_nil_r.
  - destruct (Hin n) as [info Hinfo]; [left |]. rewrite Hinfo.
    rewrite IH by (intros name Hname; apply Hin; by right).
    unfold rows_of at 2. rewrite Hinfo. by rewrite <- app_assoc.
Qed.

Lemma export_loop_missing names hd acc :
  (∃ name, name ∈ names ∧ hd !! name = None) →
  export_loop names hd acc = inl KeyError.
Proof.
  revert acc. induction names as [| n names IH]; intros acc (name & Hin & Hno).
  { by apply elem_of_nil in Hin. }
  simpl. destruct (hd !! n) as [info |] eqn:E; [| done].
  apply IH. exists name. split; [| done].
  apply elem_of_cons in Hin as [-> | Hin]; [congruence | done].
Qed.

(** The export raises [KeyError] exactly when a name of the sequence has
    no entry in the mapping; no other exception leaves the loop. *)
Theorem export_data_raises st :
  (export_data st = inl KeyError
   ↔ ∃ name, name ∈ habits st ∧ habit_data st !! name = None)
  ∧ ∀ e, export_data st = inl e → e = KeyError.
Proof.
  unfold export_data.
  destruct (decide (Forall (λ name, is_Some (habit_data st !! name))
                      (habits st))) as [Hall | Hmiss].
  - rewrite Forall_forall in Hall.
    rewrite (export_loop_rows _ _ [] Hall).
    split; [| done]. split; [done |].
    intros (name & Hin & Hno). apply Hall in Hin as [? ?]. congruence.
  - apply not_Forall_Exists in Hmiss; [| apply _].
    apply Exists_exists in Hmiss as (name & Hin & Hno).
    apply eq_None_not_Some in Hno.
    rewrite (export_loop_missing _ _ []) by eauto.
    split; [| by intros e [= <-]]. split; [eauto | done].
Qed.

(** On a store in sync the export has exactly one row for every date
    recorded in the history of a habit of the sequence; the row shows the
    category, the goal and the current streak of the habit and "Yes" or
    "No" for the status of the date. *)
Theorem export_data_rows st :
  in_sync st →
  ∃ rows,
    export_data st = inr rows
    ∧ ∀ r,
        r ∈ rows
        ↔ ∃ habit info date_str (b : bool),
            habit ∈ habits st
            ∧ habit_data st !! habit = Some info
            ∧ get_history info !! date_str = Some b
            ∧ r = {| row_habit := habit;
                     row_category := category info;
                     row_goal := goal info;
                     row_date := date_str;
                     row_completed := if b then "Yes" else "No";
                     row_streak := streak info |}.
Proof.
  intros Hs. eexists. split.
  { unfold export_data. apply export_loop_rows. intros name. apply Hs. }
  intros r. simpl. rewrite list_elem_of_bind. split.
  - intros (habit & Hr & Hin). unfold rows_of in Hr.
    destruct (habit_data st !! habit) as [info |] eqn:E;
      [| by apply elem_of_nil in Hr].
    unfold habit_rows in Hr.
    apply list_elem_of_fmap in Hr as ([d b] & -> & Hdb).
    apply elem_of_map_to_list in Hdb.
    exists habit, info, d, b. done.
  - intros (habit & info & d & b & Hin & Hinfo & Hdb & ->).
    exists habit. split; [| done]. unfold rows_of. rewrite Hinfo.
    unfold habit_rows. apply list_elem_of_fmap.
    exists (d, b). split; [done |]. by apply elem_of_map_to_list.
Qed.

Lemma export_data_rows_witness :
  ∃ rows,
    export_data run_store_checked = inr rows
    ∧ ∀ r,
        r ∈ rows
        ↔ ∃ habit info date_str (b : bool),
            habit ∈ habits run_store_checked
            ∧ habit_data run_store_checked !! habit = Some info
            ∧ get_history info !! date_str = Some b
            ∧ r = {| row_habit := habit;
                     row_category := category info;
                     row_goal := goal info;
                     row_date := date_str;
                     row_completed := if b then "Yes" else "No";
                     row_streak := streak info |}.
Proof.
  apply (export_data_rows run_store_checked).
  apply in_sync_b_spec. vm_compute. reflexivity.
Defined.

Lemma length_rows_of hd habit :
  length (rows_of hd habit) = recorded_dates hd habit.
Proof.
  unfold rows_of, recorded_dates, habit_rows, history_total.
  destruct (hd !! habit); [| done].
  by rewrite length_fmap, length_map_to_list.
Qed.

Lemma length_bind_rows hd names :
  length (names ≫= rows_of hd) = sum_list_with (recorded_dates hd) names.
Proof.
  induction names as [| n names IH]; [done |].
  rewrite bind_cons, length_app, IH, length_rows_of. done.
Qed.

(** The number of rows of the export is the number of recorded dates,
    summed over the habits of the sequence. *)
Theorem export_data_count st :
  in_sync st →
  ∃ rows,
    export_data st = inr rows
    ∧ length rows
      = sum_list_with (recorded_dates (habit_data st)) (habits st).
Proof.
  intros Hs. eexists. split.
  { unfold export_data. apply export_loop_rows. intros name. apply Hs. }
  simpl. apply length_bind_rows.
Qed.

Lemma export_data_count_witness :
  ∃ rows,
    export_data run_store_checked = inr rows
    ∧ length rows
      = sum_list_with (recorded_dates (habit_data run_store_checked))
          (habits run_store_checked).
Proof.
  apply (export_data_count run_store_checked).
  apply in_sync_b_spec. vm_compute. reflexivity.
Defined.

Lemma rows_of_keys hd habit r :
  r ∈ rows_of hd habit → row_habit r = habit.
Proof.
  unfold rows_of, habit_rows. destruct (hd !! habit); [| by intros ?%elem_of_nil].
  by intros (entry & -> & _)%list_elem_of_fmap.
Qed.

Lemma rows_of_NoDup hd habit :
  NoDup ((λ r, (row_habit r, row_date r)) <$> rows_of hd habit).
Proof.
  unfold rows_of, habit_rows. destruct (hd !! habit) as [info |];
    [| apply NoDup_nil_2].
  rewrite <- list_fmap_compose.
  assert ((λ r, (row_habit r, row_date r)) ∘ make_row habit info
          = (λ d, (habit, d)) ∘ fst) as -> by done.
  rewrite list_fmap_compose. apply NoDup_fmap_2.
  - by intros d1 d2 [= ->].
  - apply NoDup_fst_map_to_list.
Qed.

(** With unique names the export never shows a habit and date twice. *)
Theorem export_data_distinct st :
  unique_names st →
  in_sync st →
  ∃ rows,
    export_data st = inr rows
    ∧ NoDup ((λ r, (row_habit r, row_date r)) <$> rows).
Proof.
  unfold unique_names. intros Hnd Hs. eexists. split.
  { unfold export_data. apply export_loop_rows. intros name. apply Hs. }
  simpl. induction Hnd as [| n names Hn Hnd IH]; [apply NoDup_nil_2 |].
  rewrite bind_cons, fmap_app. apply NoDup_app.
  split; [apply rows_of_NoDup |]. split; [| done].
  intros key (r & -> & Hr)%list_elem_of_fmap
    (r' & Heq & (habit & Hr' & Hin)%list_elem_of_bind)%list_elem_of_fmap.
  apply rows_of_keys in Hr, Hr'. injection Heq as Hh _. congruence.
Qed.

Lemma export_data_distinct_witness :
  ∃ rows,
    export_data run_store_checked = inr rows
    ∧ NoDup ((λ r, (row_habit r, row_date r)) <$> rows).
Proof.
  apply (export_data_distinct run_store_checked).
  - unfold unique_names. apply (bool_decide_unpack _). vm_compute. exact I.
  - apply in_sync_b_spec. vm_compute. reflexivity.
Defined.

(** On a store in sync the export answers "No data to export!" exactly
    when no habit has a recorded date; otherwise it offers the rows of
    [export_data] for download. *)
Theorem export_to_csv_outcome st :
  in_sync st →
  (export_to_csv st = inr NoData
   ↔ ∀ habit info,
       habit_data st !! habit = Some info → get_history info = ∅)
  ∧ ((∃ habit info,
        habit_data st !! habit = Some info ∧ get_history info ≠ ∅) →
     ∃ rows,
       export_data st = inr rows
       ∧ rows ≠ []
       ∧ export_to_csv st = inr (Download rows)).
Proof.
  intros Hs. destruct (export_data_rows st Hs) as (rows & E & Hrows).
  unfold export_to_csv. rewrite E.
  assert (rows = [] ↔ ∀ habit info,
            habit_data st !! habit = Some info → get_history info = ∅)
    as Hempty.
  { split.
    - intros -> habit info Hinfo. apply map_empty. intros d.
      destruct (get_history info !! d) as [b |] eqn:Ed; [| done].
      exfalso. apply (not_elem_of_nil (make_row habit info (d, b))).
      apply Hrows. exists habit, info, d, b.
      split; [apply Hs; by rewrite Hinfo | done].
    - intros Hall. destruct rows as [| r rows]; [done |].
      destruct (proj1 (Hrows r)) as (habit & info & d & b & _ & Hinfo & Hd & _);
        [left |].
      rewrite (Hall habit info Hinfo) in Hd. by rewrite lookup_empty in Hd. }
  split.
  - rewrite <- Hempty. by destruct rows.
  - intros (habit & info & Hinfo & Hne).
    exists rows. split; [done |].
    assert (rows ≠ []) as Hrne.
    { intros Hnil. apply Hne. by apply (proj1 Hempty Hnil habit). }
    split; [done |]. by destruct rows.
Qed.

Lemma export_to_csv_outcome_witness :
  (export_to_csv run_store = inr NoData
   ↔ ∀ habit info,
       habit_data run_store !! habit = Some info → get_history info = ∅)
  ∧ ((∃ habit info,
        habit_data run_store !! habit = Some info ∧ get_history info ≠ ∅) →
     ∃ rows,
       export_data run_store = inr rows
       ∧ rows ≠ []
       ∧ export_to_csv run_store = inr (Download rows)).
Proof.
  apply (export_to_csv_outcome run_store).
  apply in_sync_b_spec. vm_compute. reflexivity.
Defined.

(** ** Reruns of the script *)

(** The script runs [load_data] again on every rerun.  When the session
    is what a first run reads from the file without warning, the rerun
    raises nothing and leaves the session and the file as they are. *)
Theorem rerun_keeps_session (r : resource) (s : py_session) :
  startup r = (s, false) →
  try_load {| session := s; file := r |}
  = ({| session := s; file := r |}, false).
Proof.
  unfold startup, try_load, load_data, bind, path_exists, json_load.
  destruct r as [[| data] |]; simpl; [done | |].
  - destruct (py_getitem data "habits") as [e | h]; simpl; [done |].
    destruct (py_getitem data "habit_data") as [e | d]; simpl; [done |].
    by intros [= <-].
  - by intros [= <-].
Qed.

Lemma rerun_keeps_session_witness :
  try_load {| session := py_of_state run_store;
              file := snapshot run_store None |}
  = ({| session := py_of_state run_store;
        file := snapshot run_store None |}, false).
Proof.
  apply (rerun_keeps_session (snapshot run_store None)
           (py_of_state run_store)).
  reflexivity.
Defined.

(** ** Instances of the properties without side conditions *)

Lemma remove_habit_raises_witness :
  remove_habit run_store "read" = inl ValueError
  ∧ ∃ st', remove_habit run_store "run" = inr st'.
Proof.
  destruct (remove_habit_raises run_store "read") as (Hraise & _ & _).
  destruct (remove_habit_raises run_store "run") as (_ & Hok & _).
  split.
  - apply Hraise. apply (bool_decide_unpack _). vm_compute. exact I.
  - apply Hok. apply (bool_decide_unpack _). vm_compute. exact I.
Defined.

Lemma add_habit_frame_witness :
  habit_data (add_habit run_store "read" "Other" "Weekly").1 !! "run"
  = habit_data run_store !! "run".
Proof.
  destruct (add_habit_frame run_store "read" "Other" "Weekly")
    as (Hother & _ & _).
  apply Hother. discriminate.
Defined.

Lemma record_checkin_frame_witness :
  record_checkin run_store "read" "2024-05-01" true = inl KeyError.
Proof.
  destruct (record_checkin_frame run_store "read" "2024-05-01" true)
    as (Hraise & _).
  apply Hraise. reflexivity.
Defined.

Lemma export_data_raises_witness :
  export_data {| habits := ["run"; "read"];
                 habit_data := habit_data run_store |}
  = inl KeyError.
Proof.
  destruct (export_data_raises
              {| habits := ["run"; "read"];
                 habit_data := habit_data run_store |}) as (Hraise & _).
  apply Hraise. exists "read"%string. split.
  - apply (bool_decide_unpack _). vm_compute. exact I.
  - reflexivity.
Defined.
